(** * HackHub client: registration reconciliation, status derivation and
    dashboard aggregation

    A shallow embedding of
    - [client/src/utils/api.js]: [registerForHackathon],
      [unregisterFromHackathon], [getUserRegistrations];
    - the date utilities: [getHackathonStatus];
    - [AnalyticsModal] and [FacultyDashboard.calculateStats]: the
      dashboard statistics.

    JavaScript objects are finite maps from property names to JSON values,
    [localStorage], the authenticated user, the clock and the log of
    requests handed to axios form an explicit world that every helper
    threads through a small state-and-exception monad. *)

From Stdlib Require Import ZArith Bool.
From stdpp Require Import gmap strings list fin_maps pretty.

(** ** JSON values and objects *)

Module Js.

(** The values a parsed JSON document holds in a property: [null],
    booleans, numbers (integral ones), strings and arrays.  A property that
    is absent reads as [undefined], which is [None] of [option value]. *)
#[warnings="-register-all"]
Inductive value :=
| VNull
| VBool (b : bool)
| VNum (n : Z)
| VStr (s : string)
| VArr (l : list value).

(** A record such as a registration or a hackathon: [o !! "k"] is [o.k]. *)
Abbreviation obj := (gmap string value).

(** [a === b] on two property reads.  Primitives compare by value.  Arrays
    compare by reference: [same_ref] tells whether both reads come from the
    very same object of a parsed list (where every element is a fresh
    object, two reads alias exactly when they read the same element). *)
Definition strict_eq (same_ref : bool) (a b : option value) : bool :=
  match a, b with
  | None, None => true
  | Some VNull, Some VNull => true
  | Some (VBool x), Some (VBool y) => eqb x y
  | Some (VNum x), Some (VNum y) => (x =? y)%Z
  | Some (VStr x), Some (VStr y) => String.eqb x y
  | Some (VArr _), Some (VArr _) => same_ref
  | _, _ => false
  end.

(** Truthiness of a property read, as [||] tests it. *)
Definition truthy (v : option value) : bool :=
  match v with
  | None | Some VNull => false
  | Some (VBool b) => b
  | Some (VNum n) => negb (n =? 0)%Z
  | Some (VStr s) => negb (String.eqb s "")
  | Some (VArr _) => true
  end.

(** [v || d] where [d] is a value. *)
Definition or_else (v : option value) (d : value) : value :=
  match v with
  | Some x => if truthy v then x else d
  | None => d
  end.

(** [Array.prototype.findIndex]: the callback receives the element and its
    index; the result is [-1] when no element passes. *)
Fixpoint findIndex_from {A} (p : A → nat → bool) (i : nat) (l : list A) : Z :=
  match l with
  | [] => (-1)%Z
  | x :: l' => if p x i then Z.of_nat i else findIndex_from p (S i) l'
  end.

Definition findIndex {A} (p : A → nat → bool) (l : list A) : Z :=
  findIndex_from p 0 l.

(** [Array.prototype.filter]: the callback receives the element, its index
    and the array being filtered. *)
Fixpoint filter_from {A} (p : A → nat → bool) (i : nat) (l : list A) : list A :=
  match l with
  | [] => []
  | x :: l' =>
      if p x i then x :: filter_from p (S i) l' else filter_from p (S i) l'
  end.

Definition filter {A} (p : A → nat → list A → bool) (self : list A) : list A :=
  filter_from (λ x i, p x i self) 0 self.

End Js.

Import Js.

(** ** The world of the client *)

Inductive Method := GET | POST | DELETE.

(** A request handed to the axios instance. *)
Record Request := {
  method : Method;
  url : string;
  body : option obj;
}.

(** The properties of a response body that the helpers read or build. *)
Record Body := {
  registrations : option (list obj);
  detail : option string;
  message : option string;
  success : option bool;
}.

(** An axios response, or an object of the same shape built locally (which
    has no [status]). *)
Record Response := {
  status : option Z;
  data : option Body;
}.

(** A thrown value: an [Error] with the properties axios may add. *)
Record JsError := {
  err_message : string;
  err_code : option string;
  err_response : option Response;
  err_request : bool;
}.

(** [new Error(msg)]. *)
Definition Error (msg : string) : JsError :=
  {| err_message := msg; err_code := None; err_response := None;
     err_request := false |}.

(** [localStorage] keeps under each key the list that [JSON.stringify]
    wrote there, which [JSON.parse] reads back unchanged; [currentUser] is
    [auth.currentUser] (the uid, when somebody is signed in); [clock] is
    what [new Date().toISOString()] returns; [requests] lists the calls
    made through axios, oldest first. *)
Record World := {
  localStorage : gmap string (list obj);
  currentUser : option string;
  clock : string;
  requests : list Request;
}.

(** ** Async functions as state-and-exception computations *)

(** How a promise settles. *)
Inductive Settled (A : Type) :=
| Fulfilled (a : A)
| Rejected (e : JsError).
Arguments Fulfilled {A} a.
Arguments Rejected {A} e.

Definition M (A : Type) : Type := World → Settled A * World.

#[global] Instance M_ret : MRet M := λ A a w, (Fulfilled a, w).

#[global] Instance M_bind : MBind M := λ A B k m w,
  match m w with
  | (Fulfilled a, w') => k a w'
  | (Rejected e, w') => (Rejected e, w')
  end.

Definition throw {A} (e : JsError) : M A := λ w, (Rejected e, w).

(** [try { body } catch (error) { handler }] *)
Definition try_catch {A} (body : M A) (handler : JsError → M A) : M A := λ w,
  match body w with
  | (Fulfilled a, w') => (Fulfilled a, w')
  | (Rejected e, w') => handler e w'
  end.

Definition gets {A} (f : World → A) : M A := λ w, (Fulfilled (f w), w).

(** [JSON.parse(localStorage.getItem(key) || '[]')] *)
Definition getItem (key : string) : M (list obj) :=
  gets (λ w, default [] (localStorage w !! key)).

(** [localStorage.setItem(key, JSON.stringify(l))] *)
Definition setItem (key : string) (l : list obj) : M unit := λ w,
  (Fulfilled tt,
   {| localStorage := <[key := l]> (localStorage w);
      currentUser := currentUser w; clock := clock w;
      requests := requests w |}).

(** [await api.<method>(url, body)]: the request is recorded and the promise
    settles the way the network and the backend decide, [net]. *)
Definition api_call (net : Settled Response) (rq : Request) : M Response := λ w,
  (net,
   {| localStorage := localStorage w; currentUser := currentUser w;
      clock := clock w; requests := requests w ++ [rq] |}).

Definition api_get (net : Settled Response) (u : string) : M Response :=
  api_call net {| method := GET; url := u; body := None |}.
Definition api_post (net : Settled Response) (u : string) (d : obj) : M Response :=
  api_call net {| method := POST; url := u; body := Some d |}.
Definition api_delete (net : Settled Response) (u : string) : M Response :=
  api_call net {| method := DELETE; url := u; body := None |}.

(** ** [apiEndpoints] and [apiHelpers] *)

Module apiEndpoints.
Definition register (id : string) : string :=
  "/hackathons/" +:+ id +:+ "/register".
Definition unregister (id : string) : string :=
  "/hackathons/" +:+ id +:+ "/unregister".
End apiEndpoints.

(** [error.response.data?.detail], falsy when absent or empty. *)
Definition response_detail (r : Response) : option string :=
  match data r with
  | Some b => match detail b with
              | Some d => if String.eqb d "" then None else Some d
              | None => None
              end
  | None => None
  end.

(** The [catch] block of [registerForHackathon]. *)
Definition registerForHackathon_catch (error : JsError) : M Response :=
  if bool_decide (err_code error = Some "ECONNABORTED") then
    throw (Error "Request timeout - please try again")
  else match err_response error with
  | Some response =>
      if bool_decide (status response = Some 401%Z) then
        throw (Error "Authentication failed - please login again")
      else if bool_decide (status response = Some 403%Z) then
        throw (Error "Access denied - please check your permissions")
      else if bool_decide (status response = Some 400%Z) then
        throw (Error (default "Invalid request" (response_detail response)))
      else if bool_decide (status response = Some 404%Z) then
        throw (Error "Hackathon not found")
      else if bool_decide (status response = Some 408%Z) then
        throw (Error "Authentication timeout - please try again")
      else
        throw (Error (default "Registration failed" (response_detail response)))
  | None =>
      if err_request error then
        throw (Error "No response from server - please check your connection")
      else
        throw error
  end.

(** The record written to the local cache: the fixed properties, then the
    spread [...data], whose properties override them. *)
Definition mockRegistration (id uid now : string) (data : obj) : obj :=
  data ∪
  <["id" := VStr (id +:+ "_" +:+ uid)]>
  (<["hackathon_id" := VStr id]>
  (<["user_id" := VStr uid]>
  (<["registration_date" := VStr now]>
  (<["status" := VStr "registered"]>
  (<["hackathon_title" :=
       or_else (data !! "hackathon_title") (VStr "Registered Hackathon")]> ∅))))).

Definition registerForHackathon (net : Settled Response) (id : string) (data : obj)
  : M Response :=
  try_catch
    (user ← gets currentUser;
     match user with
     | None => throw (Error "Please login to register for hackathons")
     | Some uid =>
         response ← api_post net (apiEndpoints.register id) data;
         now ← gets clock;
         existingRegistrations ← getItem "myRegistrations";
         let updatedRegistrations :=
           existingRegistrations ++ [mockRegistration id uid now data] in
         _ ← setItem "myRegistrations" updatedRegistrations;
         mret response
     end)
    registerForHackathon_catch.

(** [reg.hackathon_id !== id] *)
Definition other_hackathon (id : string) (reg : obj) : bool :=
  negb (strict_eq false (reg !! "hackathon_id") (Some (VStr id))).

Definition unregisterFromHackathon (net : Settled Response) (id : string)
  : M Response :=
  try_catch
    (response ← api_delete net (apiEndpoints.unregister id);
     existingRegistrations ← getItem "myRegistrations";
     let updatedRegistrations :=
       List.filter (other_hackathon id) existingRegistrations in
     _ ← setItem "myRegistrations" updatedRegistrations;
     mret response)
    (λ error,
     existingRegistrations ← getItem "myRegistrations";
     let updatedRegistrations :=
       List.filter (other_hackathon id) existingRegistrations in
     _ ← setItem "myRegistrations" updatedRegistrations;
     mret {| status := None;
             data := Some {| registrations := None; detail := None;
                             message := Some "Successfully unregistered from hackathon (local)";
                             success := Some true |} |}).

(** The callback of the [filter] in [getUserRegistrations]: an entry stays
    when it is the first of the combined list with its [hackathon_id]. *)
Definition first_with_id (reg : obj) (index : nat) (self : list obj) : bool :=
  (Z.of_nat index =?
   findIndex (λ r j, strict_eq (j =? index)%nat
                       (r !! "hackathon_id") (reg !! "hackathon_id")) self)%Z.

Definition registrations_response (l : list obj) : Response :=
  {| status := None;
     data := Some {| registrations := Some l; detail := None;
                     message := None; success := None |} |}.

Definition getUserRegistrations (net : Settled Response) : M Response :=
  try_catch
    (response ← api_get net "/users/registrations";
     localRegistrations ← getItem "myRegistrations";
     let backendRegistrations :=
       default [] (data response ≫= registrations) in
     let allRegistrations := backendRegistrations ++ localRegistrations in
     let uniqueRegistrations := Js.filter first_with_id allRegistrations in
     mret (registrations_response uniqueRegistrations))
    (λ error,
     localRegistrations ← getItem "myRegistrations";
     mret (registrations_response localRegistrations)).

(** ** Date utilities *)

Module dateUtils.

(** A [Date] is its time value, the milliseconds since the epoch; an
    Invalid Date has the time value NaN, here [None]. *)
Abbreviation Date := (option Z).

(** [a > b], [a >= b] and [a <= b] on dates compare the time values, and a
    comparison with NaN is false. *)
Definition gt (a b : Date) : bool :=
  match a, b with Some x, Some y => (x >? y)%Z | _, _ => false end.
Definition ge (a b : Date) : bool :=
  match a, b with Some x, Some y => (x >=? y)%Z | _, _ => false end.
Definition le (a b : Date) : bool :=
  match a, b with Some x, Some y => (x <=? y)%Z | _, _ => false end.

(** [now] is the time value of [new Date()], the three arguments are the
    dates that [new Date(...)] parses from the strings passed in. *)
Definition getHackathonStatus (now : Z) (startDate endDate registrationDeadline : Date)
  : string :=
  let now : Date := Some now in
  let start := startDate in
  let end_ := endDate in
  let regDeadline := registrationDeadline in
  if gt now end_ then "completed"
  else if ge now start && le now end_ then "ongoing"
  else if gt now regDeadline then "registration_closed"
  else "upcoming".

End dateUtils.

(** ** Dashboard statistics *)

(** [h.participants?.length || 0] *)
Definition participants_length (h : obj) : Z :=
  match h !! "participants" with
  | Some (VArr l) => Z.of_nat (length l)
  | Some (VStr s) => Z.of_nat (String.length s)
  | _ => 0
  end.

(** [h.status === s] for a string literal [s]. *)
Definition has_status (s : string) (h : obj) : bool :=
  strict_eq false (h !! "status") (Some (VStr s)).

Module AnalyticsModal.

Definition totalRegistrations (hackathons : list obj) : Z :=
  fold_left (λ sum h, sum + participants_length h)%Z hackathons 0%Z.

(** [hackathons.reduce((max, h) => ... ? h : max, hackathons[0] || {})] *)
Definition mostPopular (hackathons : list obj) : obj :=
  fold_left
    (λ max h, if (participants_length h >? participants_length max)%Z then h else max)
    hackathons
    (default ∅ (head hackathons)).

End AnalyticsModal.

Module FacultyDashboard.

Record Stats := {
  totalHackathons : Z;
  totalRegistrations : Z;
  activeHackathons : Z;
  completedHackathons : Z;
}.

(** The argument of [setStats] in [calculateStats]. *)
Definition calculateStats (hackathonData : list obj) : Stats :=
  let totalRegistrations :=
    fold_left (λ sum h, sum + participants_length h)%Z hackathonData 0%Z in
  let activeHackathons :=
    Z.of_nat (length (List.filter (has_status "ongoing") hackathonData)) in
  let completedHackathons :=
    Z.of_nat (length (List.filter (has_status "completed") hackathonData)) in
  {| totalHackathons := Z.of_nat (length hackathonData);
     totalRegistrations := totalRegistrations;
     activeHackathons := activeHackathons;
     completedHackathons := completedHackathons |}.

End FacultyDashboard.

(** ** Specification-side definitions *)

(** The [hackathon_id] of a record. *)
Definition hackathon_id (reg : obj) : option value := reg !! "hackathon_id".

(** Two distinct records carry the same hackathon identifier. *)
Definition same_id (a b : obj) : bool :=
  strict_eq false (hackathon_id a) (hackathon_id b).

(** Stable deduplication by key: scan the list, keep a record unless one
    with the same identifier was met before ([seen] holds those). *)
Fixpoint dedup_first_by_id (seen l : list obj) : list obj :=
  match l with
  | [] => []
  | reg :: l' =>
      if existsb (λ r, same_id r reg) seen
      then dedup_first_by_id (seen ++ [reg]) l'
      else reg :: dedup_first_by_id (seen ++ [reg]) l'
  end.

(** No two entries of the list have the same hackathon identifier. *)
Definition ids_distinct (l : list obj) : Prop :=
  ∀ i j a b, (i < j)%nat → l !! i = Some a → l !! j = Some b → same_id a b = false.

(** The local cache of a world. *)
Definition cache (w : World) : list obj :=
  default [] (localStorage w !! "myRegistrations").

(** The world after one more request went out. *)
Definition sent (rq : Request) (w : World) : World :=
  {| localStorage := localStorage w; currentUser := currentUser w;
     clock := clock w; requests := requests w ++ [rq] |}.

(** The world after the local cache was overwritten. *)
Definition cached (l : list obj) (w : World) : World :=
  {| localStorage := <["myRegistrations" := l]> (localStorage w);
     currentUser := currentUser w; clock := clock w; requests := requests w |}.

(** The list of registrations a response carries, [[]] when it has none. *)
Definition remote_list (response : Response) : list obj :=
  default [] (data response ≫= registrations).

Definition list_request : Request :=
  {| method := GET; url := "/users/registrations"; body := None |}.
Definition register_request (id : string) (d : obj) : Request :=
  {| method := POST; url := apiEndpoints.register id; body := Some d |}.
Definition unregister_request (id : string) : Request :=
  {| method := DELETE; url := apiEndpoints.unregister id; body := None |}.

(** The failure conditions of a registration attempt, as the error
    taxonomy lists them. *)
Inductive Failure :=
| NoIdentity
| NetworkTimeout
| Unauthorized
| Forbidden
| BadRequest (detail : string)
| NotFound
| AuthTimeout
| OtherStatus (status : Z) (detail : option string)
| NoResponse.

(** The message each failure condition surfaces to the caller. *)
Definition failure_message (f : Failure) : string :=
  match f with
  | NoIdentity => "Please login to register for hackathons"
  | NetworkTimeout => "Request timeout - please try again"
  | Unauthorized => "Authentication failed - please login again"
  | Forbidden => "Access denied - please check your permissions"
  | BadRequest d => d
  | NotFound => "Hackathon not found"
  | AuthTimeout => "Authentication timeout - please try again"
  | OtherStatus _ (Some d) => d
  | OtherStatus _ None => "Registration failed"
  | NoResponse => "No response from server - please check your connection"
  end.

(** The rejection [e] of the axios call is an HTTP answer with status [s]
    and server-supplied detail [d] (a non-empty string, when there is one),
    and not a timeout. *)
Definition http_failure (e : JsError) (s : Z) (d : option string) : Prop :=
  err_code e ≠ Some "ECONNABORTED" ∧
  ∃ r, err_response e = Some r ∧ status r = Some s ∧ response_detail r = d.

(** The world [w] and the way the remote call settles, [net], are an
    instance of the failure condition [f]. *)
Definition fails_with (w : World) (net : Settled Response) (f : Failure) : Prop :=
  match f with
  | NoIdentity => currentUser w = None
  | _ =>
      is_Some (currentUser w) ∧
      ∃ e, net = Rejected e ∧
        match f with
        | NoIdentity => False
        | NetworkTimeout => err_code e = Some "ECONNABORTED"
        | Unauthorized => ∃ d, http_failure e 401 d
        | Forbidden => ∃ d, http_failure e 403 d
        | BadRequest d => http_failure e 400 (Some d)
        | NotFound => ∃ d, http_failure e 404 d
        | AuthTimeout => ∃ d, http_failure e 408 d
        | OtherStatus s d =>
            http_failure e s d ∧ s ∉ [401; 403; 400; 404; 408]%Z
        | NoResponse =>
            err_code e ≠ Some "ECONNABORTED" ∧ err_response e = None ∧
            err_request e = true
        end
  end.

(** Whether a network call is made under a failure condition. *)
Definition calls_network (f : Failure) : bool :=
  match f with NoIdentity => false | _ => true end.

(** Status derivation as the priority list reads, on valid timestamps. *)
Definition status_by_priority (now start end_ deadline : Z) : string :=
  if decide (now > end_)%Z then "completed"
  else if decide (start ≤ now ≤ end_)%Z then "ongoing"
  else if decide (now > deadline)%Z then "registration_closed"
  else "upcoming".

(** What a JavaScript constant meant to hold a record may hold. *)
Inductive jsval :=
| JUndefined
| JNull
| JObject (o : obj).

Definition nullish (v : jsval) : Prop := v = JUndefined ∨ v = JNull.

(** The record [r] is the first of [l] with the largest participant count. *)
Definition first_maximum (l : list obj) (r : obj) : Prop :=
  ∃ i, l !! i = Some r ∧
    (∀ j h, l !! j = Some h → (participants_length h ≤ participants_length r)%Z) ∧
    (∀ j h, (j < i)%nat → l !! j = Some h →
       (participants_length h < participants_length r)%Z).

(** Concrete inputs used in the examples below. *)
Definition signed_in (uid : string) (l : list obj) : World :=
  {| localStorage := {["myRegistrations" := l]}; currentUser := Some uid;
     clock := "2024-01-01T00:00:00.000Z"; requests := [] |}.

Definition offline : JsError :=
  {| err_message := "Network Error"; err_code := Some "ERR_NETWORK";
     err_response := None; err_request := true |}.

Definition http_error (s : Z) (d : option string) : JsError :=
  {| err_message := "Request failed"; err_code := Some "ERR_BAD_REQUEST";
     err_response := Some {| status := Some s;
       data := Some {| registrations := None; detail := d;
                       message := None; success := None |} |};
     err_request := true |}.

Definition created : Response := {| status := Some 200%Z; data := None |}.

Definition registration_of (id : string) : obj :=
  {["hackathon_id" := VStr id]}.

Definition hackathon_with (title : string) (participants : list value) : obj :=
  <["title" := VStr title]> {["participants" := VArr participants]}.

(** The response [unregisterFromHackathon] makes up when the backend call
    failed. *)
Definition local_success : Response :=
  {| status := None;
     data := Some {| registrations := None; detail := None;
                     message := Some "Successfully unregistered from hackathon (local)";
                     success := Some true |} |}.

(** ** More of the date utilities *)

(** A [dateString] argument: falsy (undefined, null or the empty string),
    or a non-empty string, given by the date [new Date] parses from it. *)
Inductive DateString :=
| NoDate
| DateText (parsed : dateUtils.Date).

(** [a < b] on dates. *)
Definition date_lt (a b : dateUtils.Date) : bool :=
  match a, b with Some x, Some y => (x <? y)%Z | _, _ => false end.

(** [now] is the time value of [new Date()]. *)
Definition isPastDate (now : Z) (dateString : DateString) : bool :=
  match dateString with
  | NoDate => false
  | DateText date => date_lt date (Some now)
  end.

Definition isFutureDate (now : Z) (dateString : DateString) : bool :=
  match dateString with
  | NoDate => false
  | DateText date => dateUtils.gt date (Some now)
  end.

Definition isRegistrationOpen (now : Z) (registrationDeadline startDate : dateUtils.Date)
  : bool :=
  let now : dateUtils.Date := Some now in
  let deadline := registrationDeadline in
  let start := startDate in
  dateUtils.le now deadline && date_lt now start.

(** [`${n} unit${n > 1 ? 's' : ''}`] *)
Definition counted (n : Z) (unit : string) : string :=
  pretty n +:+ " " +:+ unit +:+ (if (n >? 1)%Z then "s" else "").

(** The divisions are [Math.floor] of a quotient by a positive number; on
    time values and a clock within the range of [Date] the doubles involved
    are exact, and so are their floors. *)
Definition getRelativeTime (now : Z) (dateString : DateString) : string :=
  match dateString with
  | NoDate => "Unknown"
  | DateText None => "Invalid date"
  | DateText (Some date) =>
      let diffInSeconds := ((date - now) / 1000)%Z in
      let diffInMinutes := (diffInSeconds / 60)%Z in
      let diffInHours := (diffInMinutes / 60)%Z in
      let diffInDays := (diffInHours / 24)%Z in
      if (Z.abs diffInDays >=? 1)%Z then
        if (diffInDays >? 0)%Z then "in " +:+ counted diffInDays "day"
        else counted (Z.abs diffInDays) "day" +:+ " ago"
      else if (Z.abs diffInHours >=? 1)%Z then
        if (diffInHours >? 0)%Z then "in " +:+ counted diffInHours "hour"
        else counted (Z.abs diffInHours) "hour" +:+ " ago"
      else if (Z.abs diffInMinutes >=? 1)%Z then
        if (diffInMinutes >? 0)%Z then "in " +:+ counted diffInMinutes "minute"
        else counted (Z.abs diffInMinutes) "minute" +:+ " ago"
      else "just now"
  end.

(** [now] is the clock as this function reads it, [later] the clock as the
    nested [getRelativeTime] reads it afterwards. *)
Definition getTimeUntilDeadline (now later : Z) (deadline : DateString) : string :=
  match deadline with
  | NoDate => "No deadline set"
  | DateText None => "Invalid deadline"
  | DateText (Some deadlineDate) =>
      if (deadlineDate <=? now)%Z then "Deadline passed"
      else getRelativeTime later deadline
  end.

(** [diffInHours % 24] is the remainder that takes the sign of the
    dividend.  The arithmetic is that of the integers, which double
    arithmetic matches while [end - start] stays below 2^53 in magnitude. *)
Definition getDuration (startDate endDate : DateString) : string :=
  match startDate, endDate with
  | NoDate, _ | _, NoDate => "Unknown duration"
  | DateText None, _ | _, DateText None => "Invalid dates"
  | DateText (Some start), DateText (Some end_) =>
      let diffInMs := (end_ - start)%Z in
      let diffInHours := (diffInMs / (1000 * 60 * 60))%Z in
      let diffInDays := (diffInHours / 24)%Z in
      if (diffInDays >=? 1)%Z then
        let remainingHours := Z.rem diffInHours 24 in
        if (remainingHours =? 0)%Z then counted diffInDays "day"
        else counted diffInDays "day" +:+ " " +:+ counted remainingHours "hour"
      else counted diffInHours "hour"
  end.

(** The text for a date [a] milliseconds ahead, by thresholds of a minute,
    an hour and a day. *)
Definition relative_future (a : Z) : string :=
  if (a <? 60000)%Z then "just now"
  else if (a <? 3600000)%Z then "in " +:+ counted (a / 60000) "minute"
  else if (a <? 86400000)%Z then "in " +:+ counted (a / 3600000) "hour"
  else "in " +:+ counted (a / 86400000) "day".

(** How synchronous code ends: with a value, or by throwing a TypeError
    (a method called on a value that has no such method). *)
Inductive Completion (A : Type) :=
| Normal (a : A)
| TypeError.
Arguments Normal {A} a.
Arguments TypeError {A}.

(** ** The participant dashboard *)

Module Profile.

(** [myRegistrations.some(reg => reg.hackathon_id === hackathonId)] *)
Definition isRegistered (myRegistrations : list obj) (hackathonId : string) : bool :=
  existsb (λ reg, strict_eq false (reg !! "hackathon_id") (Some (VStr hackathonId)))
    myRegistrations.

(** The state that [fetchDashboardData] sets. *)
Record Dashboard := {
  hackathons : list obj;
  myRegistrations : list obj;
  favorites : list (option value);
}.

(** [backendFavorites.map(fav => fav.id)]: reading [id] of a null entry
    throws. *)
Fixpoint favoriteIds (backendFavorites : list (option obj))
  : Completion (list (option value)) :=
  match backendFavorites with
  | [] => Normal []
  | None :: _ => TypeError
  | Some fav :: rest =>
      match favoriteIds rest with
      | TypeError => TypeError
      | Normal ids => Normal (fav !! "id" :: ids)
      end
  end.

(** The three calls of the [Promise.all] settle as given; a rejected one is
    replaced by an empty answer.  [hackathonsCall] fulfils with the [data]
    of the response ([None] when it is null or undefined) holding the
    [hackathons] property; [favoritesCall] with
    [favoritesResponse?.data?.favorites], whose entries may be null.  A
    TypeError in the [try] block ends in the [catch], which empties the
    three lists. *)
Definition fetchDashboardData
    (hackathonsCall : Settled (option (option (list obj))))
    (registrationsCall : Settled Response)
    (favoritesCall : Settled (option (list (option obj)))) : Dashboard :=
  let hackathonsData :=
    match hackathonsCall with
    | Fulfilled d => d
    | Rejected _ => Some (Some [])
    end in
  let registrationsList :=
    match registrationsCall with
    | Fulfilled registrationsResponse =>
        default [] (data registrationsResponse ≫= registrations)
    | Rejected _ => []
    end in
  let backendFavorites :=
    match favoritesCall with
    | Fulfilled f => default [] f
    | Rejected _ => []
    end in
  let caught := {| hackathons := []; myRegistrations := []; favorites := [] |} in
  match hackathonsData with
  | None => caught
  | Some hackathonsList =>
      match favoriteIds backendFavorites with
      | TypeError => caught
      | Normal favoriteIds =>
          {| hackathons := default [] hackathonsList;
             myRegistrations := registrationsList;
             favorites := favoriteIds |}
      end
  end.

End Profile.

(** ** More of the organiser dashboard *)

Module CsvExport.

Record Row := {
  hackathon : option value;
  participantId : value;
  registrationDate : option value;
  status : option value;
}.

(** [hackathon.participants?.forEach(participantId => csvData.push({...}))]:
    nothing for an absent or null list, a TypeError for a value that is
    neither that nor an array. *)
Definition rows_of (h : obj) : Completion (list Row) :=
  match h !! "participants" with
  | None | Some VNull => Normal []
  | Some (VArr participants) =>
      Normal (map (λ participantId,
                {| hackathon := h !! "title";
                   participantId := participantId;
                   registrationDate := h !! "created_at";
                   status := h !! "status" |}) participants)
  | Some _ => TypeError
  end.

Fixpoint getRegistrationsCSVData (hackathons : list obj) : Completion (list Row) :=
  match hackathons with
  | [] => Normal []
  | h :: rest =>
      match rows_of h with
      | TypeError => TypeError
      | Normal rows =>
          match getRegistrationsCSVData rest with
          | TypeError => TypeError
          | Normal csvData => Normal (rows ++ csvData)
          end
      end
  end.

End CsvExport.

(** [String.prototype.includes] *)
Definition includes (s searchString : string) : bool :=
  match String.index 0 searchString s with
  | Some _ => true
  | None => false
  end.

(** [Array.prototype.filter] with a callback that may throw. *)
Fixpoint filter_throwing {A} (p : A → Completion bool) (l : list A)
  : Completion (list A) :=
  match l with
  | [] => Normal []
  | x :: l' =>
      match p x with
      | TypeError => TypeError
      | Normal keep =>
          match filter_throwing p l' with
          | TypeError => TypeError
          | Normal kept => Normal (if keep then x :: kept else kept)
          end
      end
  end.

Section filterHackathons.

(** [String.prototype.toLowerCase], the platform's. *)
Variable toLowerCase : string → string.

(** [v.toLowerCase().includes(searchTerm.toLowerCase())] *)
Definition lower_includes (v : option value) (searchTerm : string) : Completion bool :=
  match v with
  | Some (VStr s) => Normal (includes (toLowerCase s) (toLowerCase searchTerm))
  | _ => TypeError
  end.

(** The search callback; [||] does not evaluate its right operand when the
    left one is true. *)
Definition matches_search (searchTerm : string) (h : obj) : Completion bool :=
  match lower_includes (h !! "title") searchTerm with
  | TypeError => TypeError
  | Normal true => Normal true
  | Normal false => lower_includes (h !! "description") searchTerm
  end.

(** The argument of [setFilteredHackathons] in [filterHackathons]. *)
Definition filterHackathons (hackathons : list obj) (searchTerm statusFilter : string)
  : Completion (list obj) :=
  let filtered :=
    if negb (String.eqb searchTerm "")
    then filter_throwing (matches_search searchTerm) hackathons
    else Normal hackathons in
  match filtered with
  | TypeError => TypeError
  | Normal filtered =>
      Normal (if negb (String.eqb statusFilter "all")
              then List.filter (has_status statusFilter) filtered
              else filtered)
  end.

End filterHackathons.

(** ** The registrations chart of the analytics view *)

Module AnalyticsCharts.

Record Bar := {
  name : value;
  registrations : Z;
}.

(** [hackathon.title.length > 15 ? hackathon.title.substring(0, 15) + '...'
    : hackathon.title]: reading [length] of a missing or null title throws;
    a number or a boolean has no [length] and is kept; an array has a
    [length] but no [substring]. *)
Definition chart_name (title : option value) : Completion value :=
  match title with
  | None | Some VNull => TypeError
  | Some (VStr s) =>
      Normal (VStr (if (15 <? String.length s)%nat
                    then String.substring 0 15 s +:+ "..." else s))
  | Some (VArr l) => if (15 <? length l)%nat then TypeError else Normal (VArr l)
  | Some v => Normal v
  end.

(** [hackathons.map(hackathon => ({ name: ..., registrations: ... }))] *)
Fixpoint registrationData (hackathons : list obj) : Completion (list Bar) :=
  match hackathons with
  | [] => Normal []
  | hackathon :: rest =>
      match chart_name (hackathon !! "title") with
      | TypeError => TypeError
      | Normal n =>
          match registrationData rest with
          | TypeError => TypeError
          | Normal bars =>
              Normal ({| name := n; registrations := participants_length hackathon |}
                      :: bars)
          end
      end
  end.

End AnalyticsCharts.

(** The participants of the record are absent, null or an array. *)
Definition participants_listed (h : obj) : Prop :=
  match h !! "participants" with
  | None | Some VNull | Some (VArr _) => True
  | Some _ => False
  end.

(** The record has a string under the key. *)
Definition has_text (key : string) (h : obj) : Prop :=
  ∃ s, h !! key = Some (VStr s).

(** Two records carry the same hackathon identifier: their identifiers
    are equal and not an array (the array of a parsed record is an object
    of its own, identical to that of no other record). *)
Definition same_identifier (a b : obj) : Prop :=
  hackathon_id a = hackathon_id b ∧ ∀ l, hackathon_id a ≠ Some (VArr l).

(** No two entries of the list carry the same hackathon identifier. *)
Definition identifiers_distinct (l : list obj) : Prop :=
  ∀ i j a b, (i < j)%nat → l !! i = Some a → l !! j = Some b → ¬ same_identifier a b.

(** [stable_dedup seen l out]: [out] is [l] without the records that carry
    the identifier of a record of [seen] or of an earlier record of [l]. *)
Inductive stable_dedup : list obj → list obj → list obj → Prop :=
| stable_dedup_nil seen :
    stable_dedup seen [] []
| stable_dedup_keep seen r l out :
    (∀ s, s ∈ seen → ¬ same_identifier s r) →
    stable_dedup (seen ++ [r]) l out →
    stable_dedup seen (r :: l) (r :: out)
| stable_dedup_drop seen r l out :
    (∃ s, s ∈ seen ∧ same_identifier s r) →
    stable_dedup (seen ++ [r]) l out →
    stable_dedup seen (r :: l) out.

(** The length of the participant list of a record, none being empty. *)
Definition listed_count (h : obj) : nat :=
  match h !! "participants" with
  | Some (VArr participants) => length participants
  | _ => 0
  end.

(** The load of the participant dashboard is abandoned: the hackathons
    response has no data, or a favourite is null. *)
Definition load_abandoned
    (hackathonsCall : Settled (option (option (list obj))))
    (favoritesCall : Settled (option (list (option obj)))) : bool :=
  match hackathonsCall with Fulfilled None => true | _ => false end
  || match favoritesCall with
     | Fulfilled (Some favs) =>
         existsb (λ fav, match fav with None => true | Some _ => false end) favs
     | _ => false
     end.

(** ** Strict equality *)

Lemma strict_eq_same (a : option value) : strict_eq true a a = true.
Proof.
  destruct a as [[| b | n | s | l]|]; simpl; try done.
  - by destruct b.
  - apply Z.eqb_refl.
  - apply String.eqb_refl.
Qed.

Lemma strict_eq_distinct_eq (a b : option value) :
  strict_eq false a b = true → a = b.
Proof.
  destruct a as [[| x | x | x | x]|], b as [[| y | y | y | y]|]; simpl; try done.
  - intros H. apply eqb_prop in H. by subst.
  - intros H. apply Z.eqb_eq in H. by subst.
  - intros H. apply String.eqb_eq in H. by subst.
Qed.

Lemma strict_eq_str (a : option value) (s : string) :
  strict_eq false a (Some (VStr s)) = true ↔ a = Some (VStr s).
Proof.
  split.
  - apply strict_eq_distinct_eq.
  - intros ->. simpl. apply String.eqb_refl.
Qed.

Lemma same_id_eq (a b : obj) : same_id a b = true → hackathon_id a = hackathon_id b.
Proof. apply strict_eq_distinct_eq. Qed.

Lemma same_id_iff (a b : obj) : same_id a b = true ↔ same_identifier a b.
Proof.
  unfold same_id, same_identifier. split.
  - intros Hsame. split; [by apply strict_eq_distinct_eq|].
    intros l Hl. rewrite Hl in Hsame. simpl in Hsame.
    by destruct (hackathon_id b) as [[| | | |?]|].
  - intros [Heq Hprim]. rewrite <- Heq.
    destruct (hackathon_id a) as [[|x|x|x|x]|]; simpl; try done.
    + by destruct x.
    + apply Z.eqb_refl.
    + apply String.eqb_refl.
    + by destruct (Hprim x).
Qed.

Lemma same_id_false_iff (a b : obj) : same_id a b = false ↔ ¬ same_identifier a b.
Proof. by rewrite <- same_id_iff, not_true_iff_false. Qed.

Lemma ids_distinct_iff (l : list obj) : ids_distinct l ↔ identifiers_distinct l.
Proof.
  unfold ids_distinct, identifiers_distinct. split.
  - intros Hd i j a b Hlt Hi Hj. apply same_id_false_iff. by apply (Hd i j).
  - intros Hd i j a b Hlt Hi Hj. apply same_id_false_iff. by apply (Hd i j).
Qed.

(** ** [findIndex] and [filter] *)

Section array_methods.
Context {A : Type}.
Implicit Types (p : A → nat → bool) (l : list A).

Lemma findIndex_from_skip p i l1 l2 :
  (∀ k x, l1 !! k = Some x → p x (i + k)%nat = false) →
  findIndex_from p i (l1 ++ l2) = findIndex_from p (i + length l1) l2.
Proof.
  revert i. induction l1 as [|y l1 IH]; intros i Hno; simpl.
  - by rewrite Nat.add_0_r.
  - specialize (Hno 0%nat y eq_refl) as Hy. rewrite Nat.add_0_r in Hy.
    rewrite Hy, IH.
    + f_equal. lia.
    + intros k x Hk. replace (S i + k)%nat with (i + S k)%nat by lia.
      by apply Hno.
Qed.

Lemma findIndex_from_hit p i l1 l2 k x :
  l1 !! k = Some x → p x (i + k)%nat = true →
  (Z.of_nat i ≤ findIndex_from p i (l1 ++ l2) < Z.of_nat (i + length l1))%Z.
Proof.
  revert i k. induction l1 as [|y l1 IH]; intros i k Hk Hp; [done|].
  simpl. destruct (p y i) eqn:Hy; [lia|].
  destruct k as [|k]; simpl in Hk.
  - injection Hk as ->. rewrite Nat.add_0_r in Hp. congruence.
  - replace (i + S k)%nat with (S i + k)%nat in Hp by lia.
    specialize (IH (S i) k Hk Hp). lia.
Qed.

End array_methods.

(** ** The duplicate filter is the stable deduplication *)

Lemma first_with_id_prefix (pre : list obj) (reg : obj) (rest : list obj) :
  first_with_id reg (length pre) (pre ++ reg :: rest)
  = negb (existsb (λ r, same_id r reg) pre).
Proof.
  unfold first_with_id, findIndex.
  set (p := λ (r : obj) (j : nat),
         strict_eq (j =? length pre)%nat (r !! "hackathon_id") (reg !! "hackathon_id")).
  assert (Hp : ∀ k r, (k < length pre)%nat → p r (0 + k)%nat = same_id r reg).
  { intros k r Hk. unfold p, same_id, hackathon_id. simpl.
    by replace (k =? length pre)%nat with false by (symmetry; apply Nat.eqb_neq; lia). }
  destruct (existsb (λ r, same_id r reg) pre) eqn:Hex; simpl.
  - apply existsb_exists in Hex as (r & Hin & Hsame).
    apply list_elem_of_In, list_elem_of_lookup in Hin as [k Hk].
    pose proof (lookup_lt_Some _ _ _ Hk) as Hlt.
    pose proof (findIndex_from_hit p 0 pre (reg :: rest) k r Hk) as Hhit.
    rewrite Hp in Hhit by done. specialize (Hhit Hsame).
    apply Z.eqb_neq. simpl in Hhit. lia.
  - rewrite findIndex_from_skip.
    + simpl. unfold p at 1. rewrite Nat.eqb_refl, strict_eq_same.
      apply Z.eqb_refl.
    + intros k r Hk. rewrite Hp by (by eapply lookup_lt_Some).
      apply not_true_is_false. intros Hsame.
      assert (existsb (λ r, same_id r reg) pre = true) as Hex'; [|congruence].
      apply existsb_exists. exists r. split; [|done].
      apply list_elem_of_In, list_elem_of_lookup. eauto.
Qed.

Lemma filter_from_dedup (pre l : list obj) :
  filter_from (λ x i, first_with_id x i (pre ++ l)) (length pre) l
  = dedup_first_by_id pre l.
Proof.
  revert pre. induction l as [|reg l IH]; intros pre; [done|].
  simpl. rewrite first_with_id_prefix.
  specialize (IH (pre ++ [reg])).
  rewrite length_app, Nat.add_1_r, <- app_assoc in IH. simpl in IH.
  rewrite IH. by destruct (existsb _ pre).
Qed.

Lemma uniqueRegistrations_dedup (all : list obj) :
  Js.filter first_with_id all = dedup_first_by_id [] all.
Proof. apply (filter_from_dedup [] all). Qed.

(** ** Properties of the stable deduplication *)

Lemma dedup_first_app (seen a b : list obj) :
  dedup_first_by_id seen (a ++ b)
  = dedup_first_by_id seen a ++ dedup_first_by_id (seen ++ a) b.
Proof.
  revert seen. induction a as [|x a IH]; intros seen; simpl.
  - by rewrite app_nil_r.
  - rewrite IH, <- app_assoc. simpl. by destruct (existsb _ seen).
Qed.

Lemma dedup_first_elem (seen l : list obj) (r : obj) :
  r ∈ dedup_first_by_id seen l →
  r ∈ l ∧ ∀ s, s ∈ seen → same_id s r = false.
Proof.
  revert seen. induction l as [|x l IH]; intros seen Hin; simpl in Hin.
  - by apply elem_of_nil in Hin.
  - assert (Hrest : r ∈ dedup_first_by_id (seen ++ [x]) l →
                    r ∈ x :: l ∧ ∀ s, s ∈ seen → same_id s r = false).
    { intros H. apply IH in H as [H1 H2]. split; [by right|].
      intros s Hs. apply H2. apply elem_of_app. by left. }
    destruct (existsb (λ r, same_id r x) seen) eqn:Hex; [by apply Hrest|].
    apply elem_of_cons in Hin as [Heq|Hin]; [subst r|by apply Hrest].
    split; [by left|]. intros s Hs.
    apply not_true_is_false. intros Hsame.
    assert (existsb (λ r, same_id r x) seen = true) as Hex'; [|congruence].
    apply existsb_exists. exists s. split; [by apply list_elem_of_In|done].
Qed.

Lemma dedup_first_distinct (seen l : list obj) :
  ids_distinct (dedup_first_by_id seen l).
Proof.
  revert seen. induction l as [|x l IH]; intros seen; simpl.
  - intros i j a b _ Hi. by rewrite lookup_nil in Hi.
  - destruct (existsb (λ r, same_id r x) seen); [apply IH|].
    intros i j a b Hlt Hi Hj.
    destruct j as [|j]; [lia|]. simpl in Hj.
    destruct i as [|i]; simpl in Hi.
    + injection Hi as Hi. subst a.
      assert (b ∈ dedup_first_by_id (seen ++ [x]) l) as Hb
        by (apply list_elem_of_lookup; eauto).
      apply dedup_first_elem in Hb as [_ Hb].
      apply Hb, elem_of_app. right. by apply list_elem_of_singleton.
    + apply (IH (seen ++ [x]) i j); [lia|done..].
Qed.

Lemma dedup_first_covers (seen l : list obj) (r : obj) :
  r ∈ l →
  (∃ s, s ∈ seen ∧ same_id s r = true) ∨
  (∃ r', r' ∈ dedup_first_by_id seen l ∧ hackathon_id r' = hackathon_id r).
Proof.
  revert seen. induction l as [|x l IH]; intros seen Hin.
  - by apply elem_of_nil in Hin.
  - simpl. destruct (existsb (λ r, same_id r x) seen) eqn:Hex.
    + apply existsb_exists in Hex as (s & Hs & Hsx).
      apply list_elem_of_In in Hs.
      apply elem_of_cons in Hin as [Heq|Hin]; [subst r; left; eauto|].
      destruct (IH (seen ++ [x]) Hin) as [(s' & Hs' & Hsame)|Hr]; [|by right].
      left. apply elem_of_app in Hs' as [Hs'|Hs']; [eauto|].
      apply list_elem_of_singleton in Hs' as ->.
      exists s. split; [done|].
      unfold same_id in *. by rewrite <- (same_id_eq _ _ Hsame).
    + apply elem_of_cons in Hin as [Heq|Hin].
      { subst r. right. exists x. split; [by left|done]. }
      destruct (IH (seen ++ [x]) Hin) as [(s' & Hs' & Hsame)|(r' & Hr' & Heq)].
      * apply elem_of_app in Hs' as [Hs'|Hs']; [left; eauto|].
        apply list_elem_of_singleton in Hs' as ->.
        right. exists x. split; [by left|by apply same_id_eq].
      * right. exists r'. split; [by right|done].
Qed.

Lemma dedup_first_stable (seen l : list obj) :
  stable_dedup seen l (dedup_first_by_id seen l).
Proof.
  revert seen. induction l as [|r l IH]; intros seen; simpl; [constructor|].
  destruct (existsb (λ s, same_id s r) seen) eqn:Hex.
  - apply stable_dedup_drop; [|apply IH].
    apply existsb_exists in Hex as (s & Hs & Hsame).
    exists s. split; [by apply list_elem_of_In|by apply same_id_iff].
  - apply stable_dedup_keep; [|apply IH].
    intros s Hs Hsame. apply same_id_iff in Hsame.
    assert (existsb (λ s, same_id s r) seen = true) as Hex'; [|congruence].
    apply existsb_exists. exists s. split; [by apply list_elem_of_In|done].
Qed.

Lemma distinct_identifiers_NoDup (l : list obj) :
  identifiers_distinct l →
  (∀ r a, r ∈ l → hackathon_id r ≠ Some (VArr a)) →
  NoDup (hackathon_id <$> l).
Proof.
  intros Hd Hprim. apply NoDup_alt. intros i j k Hi Hj.
  apply list_lookup_fmap_Some in Hi as (a & Hka & Ha).
  apply list_lookup_fmap_Some in Hj as (b & Hkb & Hb).
  assert (same_identifier a b) as Hab.
  { split; [congruence|]. intros arr. apply Hprim, list_elem_of_lookup. eauto. }
  assert (same_identifier b a) as Hba.
  { split; [congruence|]. intros arr. apply Hprim, list_elem_of_lookup. eauto. }
  destruct (Nat.lt_trichotomy i j) as [Hlt|[?|Hgt]]; [|done|].
  - by destruct (Hd i j a b Hlt Ha Hb).
  - by destruct (Hd j i b a Hgt Hb Ha).
Qed.

(** ** Running the helpers *)

Lemma cache_cached (l : list obj) (w : World) : cache (cached l w) = l.
Proof. unfold cache, cached. simpl. by rewrite lookup_insert_eq. Qed.

Lemma getUserRegistrations_fulfilled (response : Response) (w : World) :
  getUserRegistrations (Fulfilled response) w
  = (Fulfilled (registrations_response
       (Js.filter first_with_id (remote_list response ++ cache w))),
     sent list_request w).
Proof. done. Qed.

Lemma getUserRegistrations_rejected (e : JsError) (w : World) :
  getUserRegistrations (Rejected e) w
  = (Fulfilled (registrations_response (cache w)), sent list_request w).
Proof. done. Qed.

(** ** Reconciliation *)

(** C1. When the backend answers with the list [remote] and the cache
    holds [local], the list [getUserRegistrations] returns is
    [remote ++ local] deduplicated by [hackathon_id] keeping first
    occurrences: no two entries of it carry the same identifier (their
    identifiers are pairwise different when none is an array), and it is
    the deduplicated remote list followed by the local entries whose
    identifier no remote entry carries. *)
Theorem getUserRegistrations_reconciles (response : Response) (w : World) :
  let remote := remote_list response in
  let local := cache w in
  let merged := dedup_first_by_id [] (remote ++ local) in
  getUserRegistrations (Fulfilled response) w
    = (Fulfilled (registrations_response merged), sent list_request w)
  ∧ (∃ out, (getUserRegistrations (Fulfilled response) w).1 = Fulfilled out
       ∧ data out ≫= registrations = Some merged)
  ∧ stable_dedup [] (remote ++ local) merged
  ∧ identifiers_distinct merged
  ∧ ids_distinct merged
  ∧ merged = dedup_first_by_id [] remote ++ dedup_first_by_id remote local
  ∧ stable_dedup [] remote (dedup_first_by_id [] remote)
  ∧ (∀ loc rem,
      loc ∈ dedup_first_by_id remote local → rem ∈ remote →
      same_id rem loc = false ∧ ¬ same_identifier rem loc)
  ∧ ((∀ r l, r ∈ remote ++ local → hackathon_id r ≠ Some (VArr l)) →
     NoDup (hackathon_id <$> merged)).
Proof.
  intros remote local merged.
  assert (getUserRegistrations (Fulfilled response) w
    = (Fulfilled (registrations_response merged), sent list_request w)) as Hrun
    by (by rewrite getUserRegistrations_fulfilled, uniqueRegistrations_dedup).
  split; [done|]. split; [rewrite Hrun; by eexists|].
  split; [apply dedup_first_stable|].
  split; [apply ids_distinct_iff, dedup_first_distinct|].
  split; [apply dedup_first_distinct|].
  split; [apply (dedup_first_app [] remote local)|].
  split; [apply dedup_first_stable|].
  split.
  - intros loc rem Hloc Hrem.
    assert (same_id rem loc = false) as Hne
      by (by apply (dedup_first_elem remote local loc)).
    split; [done|by apply same_id_false_iff].
  - intros Hprim. apply distinct_identifiers_NoDup.
    + apply ids_distinct_iff, dedup_first_distinct.
    + intros r l Hr. apply Hprim. by apply (dedup_first_elem [] _ r).
Qed.

(** C2. When the backend answers with a non-empty list, every hackathon
    identifier of that list is the identifier of an entry of the result,
    and that entry is a remote one. *)
Theorem remote_ids_survive (response : Response) (w : World) (remote : list obj)
    (rem : obj) :
  data response ≫= registrations = Some remote →
  remote ≠ [] →
  rem ∈ remote →
  ∃ regs out,
    (getUserRegistrations (Fulfilled response) w).1
      = Fulfilled (registrations_response regs)
    ∧ out ∈ regs ∧ out ∈ remote ∧ hackathon_id out = hackathon_id rem.
Proof.
  intros Hremote _ Hrem.
  destruct (dedup_first_covers [] remote rem Hrem)
    as [(s & Hs & _)|(out & Hout & Hid)]; [by apply elem_of_nil in Hs|].
  exists (dedup_first_by_id [] (remote ++ cache w)), out.
  rewrite getUserRegistrations_fulfilled, uniqueRegistrations_dedup.
  unfold remote_list. rewrite Hremote. simpl.
  repeat split; [|by apply (dedup_first_elem [] remote)|done].
  rewrite (dedup_first_app [] remote). apply elem_of_app. by left.
Qed.

Lemma remote_ids_survive_witness :
  let remote := [registration_of "h1"; registration_of "h2"] in
  let response := registrations_response remote in
  data response ≫= registrations = Some remote
  ∧ remote ≠ []
  ∧ registration_of "h2" ∈ remote
  ∧ ∃ regs out,
      (getUserRegistrations (Fulfilled response)
         (signed_in "u1" [registration_of "h2"])).1
        = Fulfilled (registrations_response regs)
      ∧ out ∈ regs ∧ out ∈ remote
      ∧ hackathon_id out = hackathon_id (registration_of "h2").
Proof.
  intros remote response.
  assert (registration_of "h2" ∈ remote) as Hin
    by (right; left).
  split; [reflexivity|]. split; [discriminate|]. split; [exact Hin|].
  apply (remote_ids_survive response _ remote); [reflexivity|discriminate|exact Hin].
Defined.

(** A remote and a cached record for the same hackathon, and records whose
    identifier is an array (never equal to another record's). *)
Example reconcile_example :
  let remote_h1 := <["hackathon_title" := VStr "remote"]> (registration_of "h1") in
  let local_h1 := <["hackathon_title" := VStr "local"]> (registration_of "h1") in
  let arr : obj := {["hackathon_id" := VArr [VNum 1]]} in
  Js.filter first_with_id
    [remote_h1; arr; registration_of "h2"; local_h1; arr; registration_of "h2"]
  = [remote_h1; arr; registration_of "h2"; arr].
Proof. vm_compute. reflexivity. Qed.

(** C3. When the remote call fails, [getUserRegistrations] fulfils with
    exactly the cached list; nothing is thrown and the cache is untouched. *)
Theorem getUserRegistrations_falls_back (e : JsError) (w : World) :
  getUserRegistrations (Rejected e) w
    = (Fulfilled (registrations_response (cache w)), sent list_request w)
  ∧ (∃ out, (getUserRegistrations (Rejected e) w).1 = Fulfilled out
       ∧ data out ≫= registrations = Some (cache w))
  ∧ cache (getUserRegistrations (Rejected e) w).2 = cache w
  ∧ localStorage (getUserRegistrations (Rejected e) w).2 = localStorage w.
Proof.
  rewrite getUserRegistrations_rejected. split; [done|].
  split; [by eexists|]. by split.
Qed.

(** ** Registration *)

Lemma registerForHackathon_catch_world (e : JsError) (w : World) :
  ∃ e', registerForHackathon_catch e w = (Rejected e', w).
Proof.
  unfold registerForHackathon_catch.
  repeat (case_bool_decide || case_match); eauto.
Qed.

Lemma registerForHackathon_fulfilled (response : Response) (id uid : string)
    (data : obj) (w : World) :
  currentUser w = Some uid →
  registerForHackathon (Fulfilled response) id data w
  = (Fulfilled response,
     cached (cache w ++ [mockRegistration id uid (clock w) data])
       (sent (register_request id data) w)).
Proof.
  intros Huser. destruct w as [ls user clk rqs]. simpl in Huser. by subst user.
Qed.

Lemma registerForHackathon_rejected (e : JsError) (id uid : string)
    (data : obj) (w : World) :
  currentUser w = Some uid →
  registerForHackathon (Rejected e) id data w
  = registerForHackathon_catch e (sent (register_request id data) w).
Proof.
  intros Huser. destruct w as [ls user clk rqs]. simpl in Huser. by subst user.
Qed.

Lemma registerForHackathon_no_user (net : Settled Response) (id : string)
    (data : obj) (w : World) :
  currentUser w = None →
  registerForHackathon net id data w
  = (Rejected (Error "Please login to register for hackathons"), w).
Proof.
  intros Huser. destruct w as [ls user clk rqs]. simpl in Huser. by subst user.
Qed.

Lemma mockRegistration_hackathon_id (id uid now : string) (data : obj) :
  data !! "hackathon_id" = None →
  hackathon_id (mockRegistration id uid now data) = Some (VStr id).
Proof.
  intros Hd. unfold hackathon_id, mockRegistration.
  rewrite lookup_union_r by done.
  rewrite lookup_insert_ne by done. by rewrite lookup_insert_eq.
Qed.

Lemma mockRegistration_user_id (id uid now : string) (data : obj) :
  data !! "user_id" = None →
  mockRegistration id uid now data !! "user_id" = Some (VStr uid).
Proof.
  intros Hd. unfold mockRegistration.
  rewrite lookup_union_r by done.
  do 2 (rewrite lookup_insert_ne by done). by rewrite lookup_insert_eq.
Qed.

(** Whatever the backend lists, a record of the cache has its identifier in
    the reconciled list. *)
Lemma cached_id_reconciled (response : Response) (w : World) (reg : obj) :
  reg ∈ cache w →
  ∃ regs out,
    (getUserRegistrations (Fulfilled response) w).1
      = Fulfilled (registrations_response regs)
    ∧ out ∈ regs ∧ hackathon_id out = hackathon_id reg.
Proof.
  intros Hreg.
  destruct (dedup_first_covers [] (remote_list response ++ cache w) reg)
    as [(s & Hs & _)|(out & Hout & Hid)].
  - apply elem_of_app. by right.
  - by apply elem_of_nil in Hs.
  - exists (dedup_first_by_id [] (remote_list response ++ cache w)), out.
    by rewrite getUserRegistrations_fulfilled, uniqueRegistrations_dedup.
Qed.

(** C4, as the code has it.  The cache is written only after the remote
    call succeeded: then it gains the record for the hackathon (whose
    [hackathon_id] is the one registered for when the registration data
    brings none of its own), and every later successful listing yields that
    identifier whatever the backend lists.  When the remote call throws, an
    error is thrown to the caller and [localStorage] is left as it was. *)
Theorem register_caches_after_success (net : Settled Response) (id uid : string)
    (data : obj) (w : World) :
  currentUser w = Some uid →
  data !! "hackathon_id" = None →
  let w' := (registerForHackathon net id data w).2 in
  match net with
  | Fulfilled response =>
      (registerForHackathon net id data w).1 = Fulfilled response
      ∧ cache w' = cache w ++ [mockRegistration id uid (clock w) data]
      ∧ hackathon_id (mockRegistration id uid (clock w) data) = Some (VStr id)
      ∧ ∀ listed w2, cache w2 = cache w' →
          ∃ regs out,
            (getUserRegistrations (Fulfilled listed) w2).1
              = Fulfilled (registrations_response regs)
            ∧ out ∈ regs ∧ hackathon_id out = Some (VStr id)
  | Rejected e =>
      (∃ e', (registerForHackathon net id data w).1 = Rejected e')
      ∧ localStorage w' = localStorage w
  end.
Proof.
  intros Huser Hdata. destruct net as [response|e]; simpl.
  - rewrite (registerForHackathon_fulfilled _ _ uid) by done. simpl.
    rewrite cache_cached.
    pose proof (mockRegistration_hackathon_id id uid (clock w) data Hdata) as Hid.
    repeat split; [done|].
    intros listed w2 Hcache.
    destruct (cached_id_reconciled listed w2 (mockRegistration id uid (clock w) data))
      as (regs & out & Hrun & Hout & Hout_id).
    { rewrite Hcache. apply elem_of_app. right. by apply list_elem_of_singleton. }
    exists regs, out. by rewrite Hout_id.
  - rewrite (registerForHackathon_rejected _ _ uid) by done.
    destruct (registerForHackathon_catch_world e (sent (register_request id data) w))
      as [e' ->].
    split; [by exists e'|done].
Qed.

Lemma register_caches_after_success_witness :
  currentUser (signed_in "u1" []) = Some "u1"
  ∧ (∅ : obj) !! "hackathon_id" = None
  ∧ cache (registerForHackathon (Fulfilled created) "X" ∅ (signed_in "u1" [])).2
    = [mockRegistration "X" "u1" "2024-01-01T00:00:00.000Z" ∅].
Proof.
  split; [reflexivity|]. split; [reflexivity|].
  apply (register_caches_after_success (Fulfilled created) "X" "u1" ∅ (signed_in "u1" []));
    reflexivity.
Defined.

(** C4 fails as stated: registering for "X" while offline leaves the cache
    without any record for "X", and a later successful listing that omits
    "X" does not yield it. *)
Lemma register_offline_counterexample :
  let w' := (registerForHackathon (Rejected offline) "X" ∅ (signed_in "u1" [])).2 in
  ¬ (∃ reg, reg ∈ cache w' ∧ hackathon_id reg = Some (VStr "X"))
  ∧ (getUserRegistrations (Fulfilled (registrations_response [])) w').1
    = Fulfilled (registrations_response []).
Proof.
  split.
  - intros (reg & Hreg & _). vm_compute in Hreg. by apply elem_of_nil in Hreg.
  - reflexivity.
Qed.

(** ** Error taxonomy of [registerForHackathon] *)

Lemma catch_http (e : JsError) (s : Z) (d : option string) (w : World) :
  http_failure e s d →
  registerForHackathon_catch e w
  = (Rejected (Error
       (if bool_decide (s = 401%Z) then "Authentication failed - please login again"
        else if bool_decide (s = 403%Z) then "Access denied - please check your permissions"
        else if bool_decide (s = 400%Z) then default "Invalid request" d
        else if bool_decide (s = 404%Z) then "Hackathon not found"
        else if bool_decide (s = 408%Z) then "Authentication timeout - please try again"
        else default "Registration failed" d)), w).
Proof.
  intros (Hcode & r & Hr & Hs & Hd). unfold registerForHackathon_catch.
  rewrite bool_decide_eq_false_2 by done. rewrite Hr, Hs, Hd.
  repeat (case_bool_decide; simplify_eq; try done).
Qed.

(** C8. Each failure condition of a registration attempt surfaces its own
    message: without a signed-in user the "please login" error is thrown
    and no request goes out; otherwise the request goes out once and a
    timeout, the statuses 401, 403, 400 (with the server's detail verbatim),
    404, 408, any other status (the server's detail, else the generic
    message) and a missing response each throw the message of
    [failure_message]. *)
Theorem registerForHackathon_error_messages (w : World) (net : Settled Response)
    (id : string) (data : obj) (f : Failure) :
  fails_with w net f →
  registerForHackathon net id data w
  = (Rejected (Error (failure_message f)),
     if calls_network f then sent (register_request id data) w else w)
  ∧ ∃ e, (registerForHackathon net id data w).1 = Rejected e
      ∧ err_message e = failure_message f.
Proof.
  intros Hfails.
  assert (registerForHackathon net id data w
    = (Rejected (Error (failure_message f)),
       if calls_network f then sent (register_request id data) w else w)) as Hrun;
    [|split; [done|]; rewrite Hrun; by eexists].
  revert Hfails.
  destruct f as [| | | |d| | |s d|]; simpl;
    try (intros ([uid Huser] & e & -> & Hf);
         rewrite (registerForHackathon_rejected _ _ uid) by done).
  - intros Huser. by apply registerForHackathon_no_user.
  - unfold registerForHackathon_catch. by rewrite bool_decide_eq_true_2.
  - destruct Hf as [d Hf]. by rewrite (catch_http _ _ _ _ Hf).
  - destruct Hf as [d Hf]. by rewrite (catch_http _ _ _ _ Hf).
  - by rewrite (catch_http _ _ _ _ Hf).
  - destruct Hf as [d Hf]. by rewrite (catch_http _ _ _ _ Hf).
  - destruct Hf as [d Hf]. by rewrite (catch_http _ _ _ _ Hf).
  - destruct Hf as [Hf Hs]. rewrite (catch_http _ _ _ _ Hf).
    rewrite !not_elem_of_cons in Hs. destruct Hs as (?&?&?&?&?&_).
    rewrite !bool_decide_eq_false_2 by done. by destruct d.
  - destruct Hf as (Hcode & Hr & Hq). unfold registerForHackathon_catch.
    rewrite bool_decide_eq_false_2 by done. by rewrite Hr, Hq.
Qed.

Lemma registerForHackathon_error_messages_witness :
  fails_with (signed_in "u1" []) (Rejected (http_error 400 (Some "Registration closed")))
    (BadRequest "Registration closed")
  ∧ ∃ e,
      (registerForHackathon (Rejected (http_error 400 (Some "Registration closed")))
         "X" ∅ (signed_in "u1" [])).1 = Rejected e
      ∧ err_message e = "Registration closed".
Proof.
  assert (fails_with (signed_in "u1" [])
            (Rejected (http_error 400 (Some "Registration closed")))
            (BadRequest "Registration closed")) as Hf.
  { split; [by exists "u1"|]. eexists. split; [reflexivity|].
    split; [discriminate|]. eexists. repeat split. }
  split; [exact Hf|].
  exact (proj2 (registerForHackathon_error_messages _ _ "X" ∅ _ Hf)).
Defined.

(** A 400 answer without a usable detail falls back to a fixed message. *)
Lemma bad_request_without_detail (id : string) (data : obj) :
  (registerForHackathon (Rejected (http_error 400 None)) id data (signed_in "u1" [])).1
  = Rejected (Error "Invalid request").
Proof. reflexivity. Qed.

(** ** Unregistration *)

Lemma other_hackathon_spec (id : string) (reg : obj) :
  other_hackathon id reg = true ↔ hackathon_id reg ≠ Some (VStr id).
Proof.
  unfold other_hackathon. rewrite negb_true_iff, <- not_true_iff_false.
  by rewrite strict_eq_str.
Qed.

Lemma filter_sublist {A} (p : A → bool) (l : list A) :
  sublist (List.filter p l) l.
Proof.
  induction l as [|x l IH]; simpl; [constructor|].
  destruct (p x); [by apply sublist_skip|by apply sublist_cons].
Qed.

(** C9. [unregisterFromHackathon] always fulfils: with the backend's
    response when the remote call succeeded, with a locally made success
    message when it threw.  Either way the cache afterwards holds, in their
    order, exactly the records whose [hackathon_id] is not the given one. *)
Theorem unregisterFromHackathon_never_throws (net : Settled Response) (id : string)
    (w : World) :
  let kept := List.filter (other_hackathon id) (cache w) in
  unregisterFromHackathon net id w
    = (Fulfilled (match net with
                  | Fulfilled response => response
                  | Rejected _ => local_success
                  end),
       cached kept (sent (unregister_request id) w))
  ∧ cache (unregisterFromHackathon net id w).2 = kept
  ∧ sublist kept (cache w)
  ∧ ∀ reg, reg ∈ kept ↔ reg ∈ cache w ∧ hackathon_id reg ≠ Some (VStr id).
Proof.
  intros kept.
  assert (unregisterFromHackathon net id w
    = (Fulfilled (match net with
                  | Fulfilled response => response
                  | Rejected _ => local_success
                  end),
       cached kept (sent (unregister_request id) w))) as Hrun
    by (by destruct net).
  split; [done|]. split; [rewrite Hrun; apply cache_cached|].
  split.
  - apply filter_sublist.
  - intros reg. unfold kept.
    by rewrite !list_elem_of_In, filter_In, other_hackathon_spec.
Qed.

(** ** Duplicates in the cache *)

Lemma ids_distinct_app_inv (l : list obj) (a b : obj) :
  same_id a b = true → ¬ ids_distinct (l ++ [a; b]).
Proof.
  intros Hsame Hd.
  specialize (Hd (length l) (S (length l)) a b).
  rewrite Hd in Hsame; [done|lia|..].
  - rewrite lookup_app_r by lia. by rewrite Nat.sub_diag.
  - rewrite lookup_app_r by lia. by replace (S (length l) - length l)%nat with 1%nat by lia.
Qed.

(** C10. A successful [registerForHackathon] appends its record to the
    cache whatever the cache already holds.  After two successful calls for
    the same hackathon by the same user the cache ends with two records for
    that hackathon and user, so its identifiers are not distinct; they are
    distinct again in what a successful [getUserRegistrations] returns. *)
Theorem register_twice_duplicates (r1 r2 : Response) (id uid : string)
    (d1 d2 : obj) (w w2 : World) :
  currentUser w = Some uid →
  d1 !! "hackathon_id" = None → d1 !! "user_id" = None →
  d2 !! "hackathon_id" = None → d2 !! "user_id" = None →
  currentUser w2 = Some uid →
  localStorage w2 = localStorage (registerForHackathon (Fulfilled r1) id d1 w).2 →
  let m1 := mockRegistration id uid (clock w) d1 in
  let m2 := mockRegistration id uid (clock w2) d2 in
  let w3 := (registerForHackathon (Fulfilled r2) id d2 w2).2 in
  cache w2 = cache w ++ [m1]
  ∧ cache w3 = cache w ++ [m1; m2]
  ∧ hackathon_id m1 = Some (VStr id) ∧ hackathon_id m2 = Some (VStr id)
  ∧ m1 !! "user_id" = Some (VStr uid) ∧ m2 !! "user_id" = Some (VStr uid)
  ∧ ¬ ids_distinct (cache w3)
  ∧ ∀ listed, ∃ regs,
      (getUserRegistrations (Fulfilled listed) w3).1
        = Fulfilled (registrations_response regs)
      ∧ ids_distinct regs.
Proof.
  intros Hu Hh1 Hu1 Hh2 Hu2 Hu' Hls m1 m2 w3.
  assert (cache w2 = cache w ++ [m1]) as Hc2.
  { unfold cache at 1. rewrite Hls.
    rewrite (registerForHackathon_fulfilled _ _ uid) by done.
    apply cache_cached. }
  assert (cache w3 = cache w ++ [m1; m2]) as Hc3.
  { unfold w3. rewrite (registerForHackathon_fulfilled _ _ uid) by done.
    simpl. rewrite cache_cached, Hc2, <- app_assoc. done. }
  pose proof (mockRegistration_hackathon_id id uid (clock w) d1 Hh1) as Hm1.
  pose proof (mockRegistration_hackathon_id id uid (clock w2) d2 Hh2) as Hm2.
  repeat split; try done.
  - by apply mockRegistration_user_id.
  - by apply mockRegistration_user_id.
  - rewrite Hc3. apply ids_distinct_app_inv.
    unfold same_id. subst m1 m2. rewrite Hm1, Hm2. simpl. apply String.eqb_refl.
  - intros listed. eexists. split.
    + by rewrite getUserRegistrations_fulfilled, uniqueRegistrations_dedup.
    + apply dedup_first_distinct.
Qed.

Lemma register_twice_duplicates_witness :
  let w := signed_in "u1" [] in
  let w2 := (registerForHackathon (Fulfilled created) "X" ∅ w).2 in
  currentUser w = Some "u1"
  ∧ currentUser w2 = Some "u1"
  ∧ cache (registerForHackathon (Fulfilled created) "X" ∅ w2).2
    = [mockRegistration "X" "u1" (clock w) ∅; mockRegistration "X" "u1" (clock w2) ∅].
Proof.
  intros w w2. split; [reflexivity|]. split; [reflexivity|].
  apply (register_twice_duplicates created created "X" "u1" ∅ ∅ w w2); reflexivity.
Defined.

(** ** Status derivation *)

(** C5. The status is one of four distinct strings; on valid timestamps it
    is the first match of the priority list (completed, ongoing,
    registration closed, upcoming).  An event that starts a day after [T],
    ends three days after [T] and closes registration twelve hours after [T]
    is ongoing two days after [T], although its deadline has passed. *)
Theorem getHackathonStatus_priority (now start end_ deadline T : Z)
    (startDate endDate registrationDeadline : dateUtils.Date) :
  let day := 86400000%Z in
  let hour := 3600000%Z in
  dateUtils.getHackathonStatus now (Some start) (Some end_) (Some deadline)
    = status_by_priority now start end_ deadline
  ∧ dateUtils.getHackathonStatus now startDate endDate registrationDeadline
      ∈ ["completed"; "ongoing"; "registration_closed"; "upcoming"]
  ∧ NoDup ["completed"; "ongoing"; "registration_closed"; "upcoming"]
  ∧ dateUtils.getHackathonStatus (T + 2 * day)
      (Some (T + day)%Z) (Some (T + 3 * day)%Z) (Some (T + 12 * hour)%Z) = "ongoing"
  ∧ (T + 2 * day > T + 12 * hour)%Z.
Proof.
  intros day hour. repeat split.
  - unfold dateUtils.getHackathonStatus, status_by_priority,
      dateUtils.gt, dateUtils.ge, dateUtils.le.
    destruct (Z.gtb_spec now end_), (Z.geb_spec now start), (Z.leb_spec now end_),
      (Z.gtb_spec now deadline); simpl;
      repeat case_decide; try done; lia.
  - unfold dateUtils.getHackathonStatus.
    repeat case_match; set_solver.
  - repeat (apply NoDup_cons_2; [rewrite ?not_elem_of_cons; set_solver|]).
    apply NoDup_nil_2.
  - unfold dateUtils.getHackathonStatus, dateUtils.gt, dateUtils.ge, dateUtils.le.
    subst day hour.
    destruct (Z.gtb_spec (T + 2 * 86400000) (T + 3 * 86400000)); [lia|].
    destruct (Z.geb_spec (T + 2 * 86400000) (T + 86400000)); [|lia].
    destruct (Z.leb_spec (T + 2 * 86400000) (T + 3 * 86400000)); [done|lia].
  - lia.
Qed.

(** ** Aggregation *)

(** C6, as the code has it.  Over an empty list every count is zero and the
    most popular record is the empty object, whose participant count reads
    as zero. *)
Theorem empty_aggregation :
  FacultyDashboard.calculateStats []
    = {| FacultyDashboard.totalHackathons := 0;
         FacultyDashboard.totalRegistrations := 0;
         FacultyDashboard.activeHackathons := 0;
         FacultyDashboard.completedHackathons := 0 |}
  ∧ AnalyticsModal.totalRegistrations [] = 0%Z
  ∧ AnalyticsModal.mostPopular [] = ∅
  ∧ participants_length (AnalyticsModal.mostPopular []) = 0%Z.
Proof. repeat split. Qed.

(** C6 fails as stated: over an empty list the most popular value is the
    object [{}], which is neither undefined nor null. *)
Lemma empty_aggregation_counterexample :
  JObject (AnalyticsModal.mostPopular []) = JObject ∅
  ∧ ¬ (FacultyDashboard.calculateStats []
         = {| FacultyDashboard.totalHackathons := 0;
              FacultyDashboard.totalRegistrations := 0;
              FacultyDashboard.activeHackathons := 0;
              FacultyDashboard.completedHackathons := 0 |}
       ∧ AnalyticsModal.totalRegistrations [] = 0%Z
       ∧ nullish (JObject (AnalyticsModal.mostPopular []))).
Proof.
  split; [reflexivity|]. intros (_ & _ & [H|H]); discriminate H.
Qed.

Lemma first_maximum_step (pre : list obj) (acc x : obj) :
  first_maximum pre acc →
  first_maximum (pre ++ [x])
    (if (participants_length x >? participants_length acc)%Z then x else acc).
Proof.
  intros (i & Hi & Hmax & Hfirst).
  pose proof (lookup_lt_Some _ _ _ Hi) as Hlt.
  assert (∀ j h, (pre ++ [x]) !! j = Some h →
            (j < length pre)%nat ∧ pre !! j = Some h ∨ j = length pre ∧ h = x) as Hsplit.
  { intros j h Hj. destruct (decide (j < length pre)%nat) as [Hj'|Hj'].
    - left. by rewrite lookup_app_l in Hj.
    - right. rewrite lookup_app_r in Hj by lia.
      destruct (j - length pre)%nat as [|k] eqn:Hk; simpl in Hj; [|done].
      split; [lia|congruence]. }
  destruct (Z.gtb_spec (participants_length x) (participants_length acc)) as [Hgt|Hle].
  - exists (length pre). split; [|split].
    + rewrite lookup_app_r by lia. by rewrite Nat.sub_diag.
    + intros j h Hj. destruct (Hsplit j h Hj) as [[_ Hj']|[_ ->]]; [|lia].
      specialize (Hmax j h Hj'). lia.
    + intros j h Hjlt Hj. destruct (Hsplit j h Hj) as [[_ Hj']|[? _]]; [|lia].
      specialize (Hmax j h Hj'). lia.
  - exists i. split; [|split].
    + by rewrite lookup_app_l.
    + intros j h Hj. destruct (Hsplit j h Hj) as [[_ Hj']|[_ ->]]; [|lia].
      by apply (Hmax j).
    + intros j h Hjlt Hj. destruct (Hsplit j h Hj) as [[_ Hj']|[? _]]; [|lia].
      by apply (Hfirst j).
Qed.

Lemma first_maximum_fold (pre l : list obj) (acc : obj) :
  first_maximum pre acc →
  first_maximum (pre ++ l)
    (fold_left
       (λ max h, if (participants_length h >? participants_length max)%Z then h else max)
       l acc).
Proof.
  revert pre acc. induction l as [|x l IH]; intros pre acc Hacc; simpl.
  - by rewrite app_nil_r.
  - replace (pre ++ x :: l) with ((pre ++ [x]) ++ l) by (by rewrite <- app_assoc).
    apply IH. by apply first_maximum_step.
Qed.

Lemma participants_length_listed (h : obj) :
  participants_listed h → participants_length h = Z.of_nat (listed_count h).
Proof.
  unfold participants_listed, participants_length, listed_count.
  by destruct (h !! "participants") as [[| | | |?]|].
Qed.

(** C7. Over a non-empty list the most popular record is the first record
    of the list with the largest participant count.  When every record has
    a participant list (or none), that count is the length of the list, a
    missing list counting as empty; and a record whose participant list is
    strictly longer than that of the record at every other position is the
    one returned. *)
Theorem mostPopular_first_maximum (hackathons : list obj) :
  hackathons ≠ [] →
  first_maximum hackathons (AnalyticsModal.mostPopular hackathons)
  ∧ (∀ i h, hackathons !! i = Some h →
       (∀ j h', j ≠ i → hackathons !! j = Some h' →
          (participants_length h' < participants_length h)%Z) →
       AnalyticsModal.mostPopular hackathons = h)
  ∧ (Forall participants_listed hackathons →
     ∃ i, hackathons !! i = Some (AnalyticsModal.mostPopular hackathons)
       ∧ (∀ j h, hackathons !! j = Some h →
            (listed_count h ≤ listed_count (AnalyticsModal.mostPopular hackathons))%nat)
       ∧ (∀ j h, (j < i)%nat → hackathons !! j = Some h →
            (listed_count h < listed_count (AnalyticsModal.mostPopular hackathons))%nat))
  ∧ (∀ i h participants,
       hackathons !! i = Some h →
       h !! "participants" = Some (VArr participants) →
       (∀ j h', j ≠ i → hackathons !! j = Some h' →
          participants_listed h' ∧ (listed_count h' < length participants)%nat) →
       AnalyticsModal.mostPopular hackathons = h).
Proof.
  intros Hne. destruct hackathons as [|h0 tl]; [done|].
  assert (first_maximum (h0 :: tl) (AnalyticsModal.mostPopular (h0 :: tl))) as Hfm.
  { unfold AnalyticsModal.mostPopular. simpl.
    rewrite Z.gtb_ltb, Z.ltb_irrefl.
    apply (first_maximum_fold [h0] tl h0).
    exists 0%nat. split; [done|]. split.
    - intros [|j] h Hj; simpl in Hj; [|done]. injection Hj as Hj. subst h. lia.
    - intros j h Hj. lia. }
  assert (∀ i h, (h0 :: tl) !! i = Some h →
       (∀ j h', j ≠ i → (h0 :: tl) !! j = Some h' →
          (participants_length h' < participants_length h)%Z) →
       AnalyticsModal.mostPopular (h0 :: tl) = h) as Hstrictly.
  { intros i h Hi Hstrict. destruct Hfm as (i0 & Hi0 & Hmax & _).
    destruct (decide (i0 = i)) as [->|Hneq]; [congruence|].
    specialize (Hstrict i0 _ Hneq Hi0). specialize (Hmax i h Hi). lia. }
  split; [done|]. split; [done|]. split.
  - intros Hall. destruct Hfm as (i & Hi & Hmax & Hfirst).
    assert (∀ j h, (h0 :: tl) !! j = Some h → participants_listed h) as Hlisted.
    { intros j h Hj. eapply (proj1 (Forall_forall _ _) Hall).
      apply list_elem_of_lookup. eauto. }
    exists i. split; [done|]. split.
    + intros j h Hj. specialize (Hmax j h Hj).
      rewrite (participants_length_listed h), (participants_length_listed _ (Hlisted i _ Hi))
        in Hmax by eauto. lia.
    + intros j h Hlt Hj. specialize (Hfirst j h Hlt Hj).
      rewrite (participants_length_listed h), (participants_length_listed _ (Hlisted i _ Hi))
        in Hfirst by eauto. lia.
  - intros i h participants Hi Hp Hothers. apply (Hstrictly i h Hi).
    intros j h' Hne' Hj. destruct (Hothers j h' Hne' Hj) as [Hl Hlt].
    rewrite (participants_length_listed h' Hl).
    unfold participants_length. rewrite Hp. lia.
Qed.

Lemma mostPopular_first_maximum_witness :
  let a := hackathon_with "a" [VStr "u1"] in
  let b := hackathon_with "b" [VStr "u1"; VStr "u2"] in
  let c := hackathon_with "c" [VStr "u3"; VStr "u4"] in
  [a; b; c] ≠ [] ∧ AnalyticsModal.mostPopular [a; b; c] = b.
Proof.
  intros a b c. split; [discriminate|].
  destruct (mostPopular_first_maximum [a; b; c]) as (_ & _ & Hlisted & _);
    [discriminate|].
  destruct Hlisted as (i & Hi & Hmax & Hfirst).
  { repeat constructor. }
  assert (listed_count a = 1%nat) as Ha by (vm_compute; reflexivity).
  assert (listed_count b = 2%nat) as Hb by (vm_compute; reflexivity).
  assert (listed_count c = 2%nat) as Hc by (vm_compute; reflexivity).
  destruct i as [|[|[|i]]].
  - assert (AnalyticsModal.mostPopular [a; b; c] = a) as Hmp
      by (apply (inj Some); by rewrite <- Hi).
    specialize (Hmax 1%nat b eq_refl). rewrite Hmp, Ha, Hb in Hmax. lia.
  - apply (inj Some). by rewrite <- Hi.
  - assert (AnalyticsModal.mostPopular [a; b; c] = c) as Hmp
      by (apply (inj Some); by rewrite <- Hi).
    specialize (Hfirst 1%nat b (le_n 2) eq_refl). rewrite Hmp, Hb, Hc in Hfirst. lia.
  - discriminate Hi.
Defined.

Example mostPopular_tie :
  AnalyticsModal.mostPopular
    [hackathon_with "a" [VStr "u1"]; hackathon_with "b" [VStr "u1"; VStr "u2"];
     hackathon_with "c" [VStr "u3"; VStr "u4"]]
  = hackathon_with "b" [VStr "u1"; VStr "u2"].
Proof. vm_compute. reflexivity. Qed.

(** ** Date utilities *)

Lemma nested_floor (a : Z) :
  (a / 1000 / 60 = a / 60000 ∧ a / 1000 / 60 / 60 = a / 3600000
   ∧ a / 1000 / 60 / 60 / 24 = a / 86400000)%Z.
Proof.
  rewrite !Z.div_div by lia. done.
Qed.

(** With a start that is not after the end and a deadline that parses, an
    event is upcoming exactly when its registration is open.  With a
    deadline that does not parse registration is never open, while the
    event is upcoming whenever it has not started. *)
Theorem upcoming_iff_registration_open (now start end_ : Z) :
  (start ≤ end_)%Z →
  (∀ deadline : Z,
     dateUtils.getHackathonStatus now (Some start) (Some end_) (Some deadline)
       = "upcoming"
     ↔ isRegistrationOpen now (Some deadline) (Some start) = true)
  ∧ isRegistrationOpen now None (Some start) = false
  ∧ (dateUtils.getHackathonStatus now (Some start) (Some end_) None = "upcoming"
     ↔ (now < start)%Z).
Proof.
  intros Hse.
  unfold dateUtils.getHackathonStatus, isRegistrationOpen,
    dateUtils.gt, dateUtils.ge, dateUtils.le, date_lt.
  split; [|split; [done|]].
  - intros deadline.
    destruct (Z.gtb_spec now end_), (Z.geb_spec now start), (Z.leb_spec now end_),
      (Z.gtb_spec now deadline), (Z.leb_spec now deadline), (Z.ltb_spec now start);
      simpl; split; intros; try done; lia.
  - destruct (Z.gtb_spec now end_), (Z.geb_spec now start), (Z.leb_spec now end_);
      simpl; split; intros; try done; lia.
Qed.

Lemma upcoming_iff_registration_open_witness :
  (10 ≤ 20)%Z
  ∧ (dateUtils.getHackathonStatus 5 (Some 10%Z) (Some 20%Z) (Some 7%Z) = "upcoming"
     ↔ isRegistrationOpen 5 (Some 7%Z) (Some 10%Z) = true)
  ∧ isRegistrationOpen 5 None (Some 10%Z) = false
  ∧ (dateUtils.getHackathonStatus 5 (Some 10%Z) (Some 20%Z) None = "upcoming"
     ↔ (5 < 10)%Z).
Proof.
  split; [lia|].
  destruct (upcoming_iff_registration_open 5 10 20) as (Hvalid & Hnone & Hup); [lia|].
  split; [apply Hvalid|]. by split.
Defined.

(** An event whose end date does not parse is never completed nor ongoing:
    it is closed for registration once the deadline has passed and upcoming
    otherwise, whatever its start date. *)
Theorem status_without_end_date (now deadline : Z) (startDate : dateUtils.Date) :
  dateUtils.getHackathonStatus now startDate None (Some deadline)
    = (if decide (now > deadline)%Z then "registration_closed" else "upcoming")
  ∧ dateUtils.getHackathonStatus now startDate None None = "upcoming".
Proof.
  unfold dateUtils.getHackathonStatus, dateUtils.gt, dateUtils.ge, dateUtils.le.
  split.
  - destruct startDate; simpl; rewrite ?andb_false_r;
      destruct (Z.gtb_spec now deadline); case_decide; (done || lia).
  - destruct startDate; simpl; by rewrite ?andb_false_r.
Qed.

Lemma relative_time_before (now date : Z) :
  (date < now)%Z →
  let days := (- ((date - now) / 86400000))%Z in
  (1 ≤ days)%Z
  ∧ getRelativeTime now (DateText (Some date)) = counted days "day" +:+ " ago".
Proof.
  intros Hlt days.
  assert (1 ≤ days)%Z as Hdays.
  { unfold days. pose proof (Z.div_lt_upper_bound (date - now) 86400000 0). lia. }
  split; [done|]. unfold getRelativeTime.
  destruct (nested_floor (date - now)) as (_ & _ & ->). fold days.
  replace ((date - now) / 86400000)%Z with (- days)%Z by (unfold days; lia).
  replace (Z.abs (- days)) with days by lia.
  destruct (Z.geb_spec days 1); [|lia].
  destruct (Z.gtb_spec (- days) 0); [lia|done].
Qed.

(** A date before now, by however little, reads as a number of days ago,
    at least one: the floored quotients of a negative difference are all
    negative. *)
Theorem getRelativeTime_past (now date : Z) :
  (date < now)%Z →
  let days := (- ((date - now) / 86400000))%Z in
  (1 ≤ days)%Z
  ∧ getRelativeTime now (DateText (Some date)) = counted days "day" +:+ " ago".
Proof. intros Hlt. by apply relative_time_before. Qed.

Lemma getRelativeTime_past_witness :
  (999 < 1000)%Z ∧ getRelativeTime 1000 (DateText (Some 999%Z)) = "1 day ago".
Proof.
  split; [lia|]. apply (getRelativeTime_past 1000 999). lia.
Defined.

Lemma relative_time_ahead (now date : Z) :
  (now ≤ date)%Z →
  getRelativeTime now (DateText (Some date)) = relative_future (date - now).
Proof.
  intros Hle. unfold getRelativeTime, relative_future.
  destruct (nested_floor (date - now)) as (Hm & Hh & Hd).
  rewrite Hd, Hh, Hm. set (a := (date - now)%Z). assert (0 ≤ a)%Z by (unfold a; lia).
  pose proof (Z.div_pos a 60000). pose proof (Z.div_pos a 3600000).
  pose proof (Z.div_pos a 86400000).
  rewrite !Z.abs_eq by lia.
  pose proof (Z.div_le_lower_bound a 60000 1).
  pose proof (Z.div_le_lower_bound a 3600000 1).
  pose proof (Z.div_le_lower_bound a 86400000 1).
  pose proof (Z.div_lt_upper_bound a 60000 1).
  pose proof (Z.div_lt_upper_bound a 3600000 1).
  pose proof (Z.div_lt_upper_bound a 86400000 1).
  destruct (Z.ltb_spec a 60000), (Z.ltb_spec a 3600000), (Z.ltb_spec a 86400000),
    (Z.geb_spec (a / 86400000) 1), (Z.geb_spec (a / 3600000) 1),
    (Z.geb_spec (a / 60000) 1),
    (Z.gtb_spec (a / 86400000) 0), (Z.gtb_spec (a / 3600000) 0),
    (Z.gtb_spec (a / 60000) 0); try done; lia.
Qed.

(** A date that is not before now reads "just now" within the minute, and
    otherwise counts whole minutes, hours or days ahead. *)
Theorem getRelativeTime_future (now date : Z) :
  (now ≤ date)%Z →
  getRelativeTime now (DateText (Some date)) = relative_future (date - now).
Proof. intros Hle. by apply relative_time_ahead. Qed.

Lemma getRelativeTime_future_witness :
  (1000 ≤ 7201000)%Z ∧ getRelativeTime 1000 (DateText (Some 7201000%Z)) = "in 2 hours".
Proof.
  split; [lia|]. apply (getRelativeTime_future 1000 7201000). lia.
Defined.

(** A deadline that is still ahead at both clock readings reads as a time
    ahead; one that passes between the two readings is not reported as
    passed but as a number of days ago. *)
Theorem getTimeUntilDeadline_two_readings (now later deadline : Z) :
  (now < deadline)%Z →
  getTimeUntilDeadline now later (DateText (Some deadline))
  = if decide (later ≤ deadline)%Z then relative_future (deadline - later)
    else counted (- ((deadline - later) / 86400000)) "day" +:+ " ago".
Proof.
  intros Hlt. unfold getTimeUntilDeadline.
  destruct (Z.leb_spec deadline now); [lia|].
  case_decide.
  - by apply relative_time_ahead.
  - apply relative_time_before. lia.
Qed.

Lemma getTimeUntilDeadline_two_readings_witness :
  (1000 < 1500)%Z
  ∧ getTimeUntilDeadline 1000 1600 (DateText (Some 1500%Z)) = "1 day ago".
Proof.
  split; [lia|]. apply (getTimeUntilDeadline_two_readings 1000 1600 1500). lia.
Defined.

(** No date is both past and future; a date is neither exactly when it is
    missing, invalid, or the present instant. *)
Theorem past_future_exclusive (now : Z) (dateString : DateString) :
  isPastDate now dateString && isFutureDate now dateString = false
  ∧ (isPastDate now dateString || isFutureDate now dateString = false
     ↔ dateString = NoDate ∨ dateString = DateText None
       ∨ dateString = DateText (Some now)).
Proof.
  destruct dateString as [|[date|]]; simpl.
  - split; [done|]. split; [by left|done].
  - unfold date_lt. destruct (Z.ltb_spec date now), (Z.gtb_spec date now); simpl;
      (split; [done || lia|]); split; try done; try lia.
    + intros [?|[?|?]]; simplify_eq; lia.
    + intros [?|[?|?]]; simplify_eq; lia.
    + intros _. right. right. do 2 f_equal. lia.
  - split; [done|]. split; [by right; left|done].
Qed.

(** An end before the start is not rejected: the duration reads as a
    negative number of hours, singular, and never as days (for a difference
    that double arithmetic holds exactly). *)
Theorem getDuration_negative (start end_ : Z) :
  (end_ < start)%Z →
  (- 2 ^ 53 < end_ - start)%Z →
  let hours := ((end_ - start) / 3600000)%Z in
  (hours < 0)%Z
  ∧ getDuration (DateText (Some start)) (DateText (Some end_))
    = pretty hours +:+ " hour".
Proof.
  intros Hlt _ hours.
  assert (hours < 0)%Z as Hh
    by (unfold hours; apply Z.div_lt_upper_bound; lia).
  split; [done|]. unfold getDuration. change (1000 * 60 * 60)%Z with 3600000%Z.
  fold hours.
  assert (hours / 24 < 0)%Z by (apply Z.div_lt_upper_bound; lia).
  destruct (Z.geb_spec (hours / 24) 1); [lia|].
  unfold counted. by destruct (Z.gtb_spec hours 1); [lia|].
Qed.

Lemma getDuration_negative_witness :
  (0 < 18000000)%Z
  ∧ (- 2 ^ 53 < 0 - 18000000)%Z
  ∧ getDuration (DateText (Some 18000000%Z)) (DateText (Some 0%Z)) = "-5 hour".
Proof.
  split; [lia|]. split; [lia|]. apply (getDuration_negative 18000000 0); lia.
Defined.

(** ** More on reconciliation *)

Lemma dedup_first_sublist (seen l : list obj) :
  sublist (dedup_first_by_id seen l) l.
Proof.
  revert seen. induction l as [|x l IH]; intros seen; simpl; [constructor|].
  destruct (existsb _ seen); [by apply sublist_cons|by apply sublist_skip].
Qed.

Lemma ids_distinct_cons (x : obj) (l : list obj) :
  ids_distinct (x :: l) ↔ (∀ r, r ∈ l → same_id x r = false) ∧ ids_distinct l.
Proof.
  split.
  - intros Hd. split.
    + intros r Hr. apply list_elem_of_lookup in Hr as [j Hj].
      apply (Hd 0%nat (S j)); [lia|done..].
    + intros i j a b Hlt Hi Hj. apply (Hd (S i) (S j)); [lia|done..].
  - intros [Hx Hl] i j a b Hlt Hi Hj.
    destruct j as [|j]; [lia|]. simpl in Hj.
    destruct i as [|i]; simpl in Hi.
    + injection Hi as Hi. subst a. apply Hx, list_elem_of_lookup. eauto.
    + apply (Hl i j); [lia|done..].
Qed.

Lemma dedup_first_fixed (seen l : list obj) :
  dedup_first_by_id seen l = l
  ↔ (∀ s r, s ∈ seen → r ∈ l → same_id s r = false) ∧ ids_distinct l.
Proof.
  revert seen. induction l as [|x l IH]; intros seen; simpl.
  - split; [|done]. intros _. split.
    + intros s r _ Hr. by apply elem_of_nil in Hr.
    + intros i j a b _ Hi. by rewrite lookup_nil in Hi.
  - destruct (existsb (λ r, same_id r x) seen) eqn:Hex.
    + split.
      * intros Heq. pose proof (dedup_first_sublist (seen ++ [x]) l) as Hsub.
        apply sublist_length in Hsub. rewrite Heq in Hsub. simpl in Hsub. lia.
      * intros [Hseen _]. apply existsb_exists in Hex as (s & Hs & Hsx).
        apply list_elem_of_In in Hs.
        rewrite (Hseen s x Hs) in Hsx; [done|by left].
    + rewrite ids_distinct_cons. split.
      * intros Heq. injection Heq as Heq. apply IH in Heq as [Hseen Hd].
        split; [|split; [|done]].
        -- intros s r Hs Hr. apply elem_of_cons in Hr as [->|Hr].
           ++ apply not_true_is_false. intros Hsx.
              assert (existsb (λ r, same_id r x) seen = true) as Hex'; [|congruence].
              apply existsb_exists. exists s. split; [by apply list_elem_of_In|done].
           ++ apply Hseen; [|done]. apply elem_of_app. by left.
        -- intros r Hr. apply Hseen; [|done]. apply elem_of_app. right.
           by apply list_elem_of_singleton.
      * intros (Hseen & Hx & Hd). f_equal. apply IH. split; [|done].
        intros s r Hs Hr. apply elem_of_app in Hs as [Hs|Hs].
        -- apply Hseen; [done|by right].
        -- apply list_elem_of_singleton in Hs as ->. by apply Hx.
Qed.

(** Reconciliation neither invents nor reorders entries: what a successful
    listing returns is a subsequence of the remote list followed by the
    cache. *)
Theorem reconciled_is_subsequence (response : Response) (w : World) :
  ∃ regs,
    (getUserRegistrations (Fulfilled response) w).1
      = Fulfilled (registrations_response regs)
    ∧ sublist regs (remote_list response ++ cache w).
Proof.
  eexists. split.
  - by rewrite getUserRegistrations_fulfilled, uniqueRegistrations_dedup.
  - apply dedup_first_sublist.
Qed.

(** A successful listing returns the remote list followed by the cache
    unchanged exactly when no two of their entries carry the same
    identifier. *)
Theorem reconciled_unchanged_iff_distinct (response : Response) (w : World) :
  (∃ out, (getUserRegistrations (Fulfilled response) w).1 = Fulfilled out
     ∧ data out ≫= registrations = Some (remote_list response ++ cache w))
  ↔ identifiers_distinct (remote_list response ++ cache w).
Proof.
  rewrite getUserRegistrations_fulfilled, uniqueRegistrations_dedup. simpl.
  rewrite <- ids_distinct_iff. split.
  - intros (out & [= <-] & Hout). simpl in Hout. injection Hout as Heq.
    by apply dedup_first_fixed in Heq as [_ ?].
  - intros Hd. eexists. split; [done|]. simpl. f_equal.
    apply dedup_first_fixed. split; [|done].
    intros s r Hs. by apply elem_of_nil in Hs.
Qed.

Example duplicate_is_dropped :
  let response := registrations_response [registration_of "h1"] in
  let w := signed_in "u1" [registration_of "h1"] in
  ¬ identifiers_distinct (remote_list response ++ cache w)
  ∧ ∃ out, (getUserRegistrations (Fulfilled response) w).1 = Fulfilled out
      ∧ data out ≫= registrations = Some [registration_of "h1"].
Proof.
  intros response w. split.
  - intros Hd. apply (Hd 0%nat 1%nat (registration_of "h1") (registration_of "h1"));
      [lia|done|done|]. split; [done|]. intros l. vm_compute. discriminate.
  - eexists. split; [reflexivity|]. vm_compute. reflexivity.
Qed.

Lemma unregister_cache (net : Settled Response) (id : string) (w : World) :
  cache (unregisterFromHackathon net id w).2
  = List.filter (other_hackathon id) (cache w).
Proof. destruct net; simpl; apply cache_cached. Qed.

Lemma filter_idempotent {A} (p : A → bool) (l : list A) :
  List.filter p (List.filter p l) = List.filter p l.
Proof.
  induction l as [|x l IH]; [done|]. simpl.
  destruct (p x) eqn:Hp; simpl; by rewrite ?Hp, IH.
Qed.

Lemma isRegistered_spec (l : list obj) (id : string) :
  Profile.isRegistered l id = true
  ↔ ∃ reg, reg ∈ l ∧ hackathon_id reg = Some (VStr id).
Proof.
  unfold Profile.isRegistered. rewrite existsb_exists. split.
  - intros (reg & Hin & Heq). exists reg. split; [by apply list_elem_of_In|].
    by apply strict_eq_str.
  - intros (reg & Hin & Heq). exists reg. split; [by apply list_elem_of_In|].
    by apply strict_eq_str.
Qed.

Lemma isRegistered_dedup (l : list obj) (id : string) :
  Profile.isRegistered (dedup_first_by_id [] l) id = Profile.isRegistered l id.
Proof.
  apply eq_true_iff_eq. rewrite !isRegistered_spec. split.
  - intros (reg & Hin & Heq). exists reg. split; [|done].
    by apply (dedup_first_elem [] l).
  - intros (reg & Hin & Heq).
    destruct (dedup_first_covers [] l reg Hin) as [(s & Hs & _)|(r' & Hr' & Hid)].
    + by apply elem_of_nil in Hs.
    + exists r'. split; [done|congruence].
Qed.

Lemma fetchDashboardData_registrations
    (hackathonsCall : Settled (option (option (list obj))))
    (registrationsCall : Settled Response)
    (favoritesCall : Settled (option (list (option obj)))) :
  Profile.myRegistrations
    (Profile.fetchDashboardData hackathonsCall registrationsCall favoritesCall)
  = if load_abandoned hackathonsCall favoritesCall then []
    else match registrationsCall with
         | Fulfilled registrationsResponse => remote_list registrationsResponse
         | Rejected _ => []
         end.
Proof.
  assert (∀ favs, Profile.favoriteIds favs = TypeError
            ↔ existsb (λ fav, match fav with None => true | Some _ => false end) favs
              = true) as Hfav.
  { induction favs as [|[fav|] favs IH]; simpl; [done| |done].
    destruct (Profile.favoriteIds favs); [|by apply IH].
    split; [done|]. intros H. by apply IH in H. }
  unfold Profile.fetchDashboardData, load_abandoned.
  destruct hackathonsCall as [[hk|]|?]; simpl; try done.
  - destruct favoritesCall as [[favs|]|?]; simpl; try done.
    destruct (Profile.favoriteIds favs) eqn:Hids.
    + destruct (existsb _ favs) eqn:Hex; [|done]. apply Hfav in Hex. congruence.
    + apply Hfav in Hids. by rewrite Hids.
  - destruct favoritesCall as [[favs|]|?]; simpl; try done.
    destruct (Profile.favoriteIds favs) eqn:Hids.
    + destruct (existsb _ favs) eqn:Hex; [|done]. apply Hfav in Hex. congruence.
    + apply Hfav in Hids. by rewrite Hids.
Qed.

Lemma isRegistered_loaded
    (hackathonsCall : Settled (option (option (list obj))))
    (favoritesCall : Settled (option (list (option obj))))
    (net : Settled Response) (w : World) (id : string) :
  Profile.isRegistered
    (Profile.myRegistrations
       (Profile.fetchDashboardData hackathonsCall (getUserRegistrations net w).1
          favoritesCall)) id
  = if load_abandoned hackathonsCall favoritesCall then false
    else Profile.isRegistered
           (match net with
            | Fulfilled response => remote_list response ++ cache w
            | Rejected _ => cache w
            end) id.
Proof.
  rewrite fetchDashboardData_registrations.
  destruct (load_abandoned hackathonsCall favoritesCall); [done|].
  destruct net as [response|e].
  - rewrite getUserRegistrations_fulfilled, uniqueRegistrations_dedup. simpl.
    apply isRegistered_dedup.
  - by rewrite getUserRegistrations_rejected.
Qed.

(** Dropping duplicates does not change which hackathons count as
    registered.  After the dashboard loads, [isRegistered] answers as it
    would on the remote list followed by the cache when the backend
    answered the listing, and as on the cache alone when it did not; when
    the load is abandoned (a hackathons response without data, a null
    favourite) the registrations are emptied and it answers false. *)
Theorem isRegistered_after_load
    (hackathonsCall : Settled (option (option (list obj))))
    (favoritesCall : Settled (option (list (option obj))))
    (net : Settled Response) (w : World) (id : string) :
  Profile.isRegistered
    (Profile.myRegistrations
       (Profile.fetchDashboardData hackathonsCall (getUserRegistrations net w).1
          favoritesCall)) id
  = if load_abandoned hackathonsCall favoritesCall then false
    else Profile.isRegistered
           (match net with
            | Fulfilled response => remote_list response ++ cache w
            | Rejected _ => cache w
            end) id.
Proof. apply isRegistered_loaded. Qed.

Example abandoned_load_forgets_registrations :
  let w := signed_in "u1" [registration_of "h1"] in
  Profile.isRegistered
    (Profile.myRegistrations
       (Profile.fetchDashboardData (Fulfilled None)
          (getUserRegistrations (Rejected offline) w).1 (Fulfilled None))) "h1"
  = false
  ∧ Profile.isRegistered
      (Profile.myRegistrations
         (Profile.fetchDashboardData (Rejected offline)
            (getUserRegistrations (Rejected offline) w).1 (Fulfilled None))) "h1"
    = true.
Proof. split; vm_compute; reflexivity. Qed.

(** Unregistering twice leaves the cache as unregistering once does,
    whatever the two remote calls do. *)
Theorem unregister_idempotent (net1 net2 : Settled Response) (id : string) (w : World) :
  let w1 := (unregisterFromHackathon net1 id w).2 in
  cache (unregisterFromHackathon net2 id w1).2 = cache w1.
Proof.
  intros w1. unfold w1. rewrite !unregister_cache. apply filter_idempotent.
Qed.

(** After unregistering from a hackathon the dashboard shows it as
    registered exactly when the load completes and the backend still lists
    it: never when the listing fails or the load is abandoned, and again as
    soon as a successful listing carries it. *)
Theorem isRegistered_after_unregister
    (hackathonsCall : Settled (option (option (list obj))))
    (favoritesCall : Settled (option (list (option obj))))
    (net listing : Settled Response) (id : string) (w : World) :
  let w' := (unregisterFromHackathon net id w).2 in
  Profile.isRegistered
    (Profile.myRegistrations
       (Profile.fetchDashboardData hackathonsCall (getUserRegistrations listing w').1
          favoritesCall)) id
  = if load_abandoned hackathonsCall favoritesCall then false
    else match listing with
         | Fulfilled response => Profile.isRegistered (remote_list response) id
         | Rejected _ => false
         end.
Proof.
  intros w'. rewrite isRegistered_loaded.
  destruct (load_abandoned hackathonsCall favoritesCall); [done|].
  assert (Profile.isRegistered (cache w') id = false) as Hnone.
  { apply not_true_is_false. rewrite isRegistered_spec.
    intros (reg & Hin & Heq). unfold w' in Hin. rewrite unregister_cache in Hin.
    apply list_elem_of_In, filter_In in Hin as [_ Hother].
    by apply other_hackathon_spec in Hother. }
  destruct listing as [response|e]; [|done].
  unfold Profile.isRegistered in *. by rewrite existsb_app, Hnone, orb_false_r.
Qed.

(** Registering and then unregistering leaves in the cache exactly the
    records it held for other hackathons, when the registration data brings
    no [hackathon_id] of its own. *)
Theorem register_then_unregister (response : Response) (net : Settled Response)
    (id uid : string) (data : obj) (w : World) :
  currentUser w = Some uid →
  data !! "hackathon_id" = None →
  let w1 := (registerForHackathon (Fulfilled response) id data w).2 in
  cache (unregisterFromHackathon net id w1).2
  = List.filter (other_hackathon id) (cache w).
Proof.
  intros Huser Hdata w1. rewrite unregister_cache. unfold w1.
  rewrite (registerForHackathon_fulfilled _ _ uid) by done. simpl.
  rewrite cache_cached, List.filter_app. simpl.
  replace (other_hackathon id (mockRegistration id uid (clock w) data)) with false.
  - by rewrite app_nil_r.
  - symmetry. apply not_true_is_false. rewrite other_hackathon_spec.
    rewrite mockRegistration_hackathon_id by done. intros Hne. by apply Hne.
Qed.

Lemma register_then_unregister_witness :
  let w := signed_in "u1" [registration_of "Y"] in
  currentUser w = Some "u1"
  ∧ (∅ : obj) !! "hackathon_id" = None
  ∧ cache (unregisterFromHackathon (Rejected offline) "X"
             (registerForHackathon (Fulfilled created) "X" ∅ w).2).2
    = [registration_of "Y"].
Proof.
  intros w. split; [reflexivity|]. split; [reflexivity|].
  rewrite (register_then_unregister created (Rejected offline) "X" "u1" ∅ w);
    reflexivity.
Defined.

(** A registration whose data names another hackathon is cached under that
    other identifier, and unregistering from the hackathon registered for
    does not remove it. *)
Theorem register_override_survives (response : Response) (net : Settled Response)
    (id other uid : string) (data : obj) (w : World) :
  currentUser w = Some uid →
  data !! "hackathon_id" = Some (VStr other) →
  other ≠ id →
  let w1 := (registerForHackathon (Fulfilled response) id data w).2 in
  let reg := mockRegistration id uid (clock w) data in
  hackathon_id reg = Some (VStr other)
  ∧ reg ∈ cache w1
  ∧ reg ∈ cache (unregisterFromHackathon net id w1).2.
Proof.
  intros Huser Hdata Hne w1 reg.
  assert (hackathon_id reg = Some (VStr other)) as Hid.
  { unfold hackathon_id, reg, mockRegistration. by rewrite (lookup_union_Some_l _ _ _ _ Hdata). }
  assert (reg ∈ cache w1) as Hin.
  { unfold w1. rewrite (registerForHackathon_fulfilled _ _ uid) by done. simpl.
    rewrite cache_cached. apply elem_of_app. right. by apply list_elem_of_singleton. }
  repeat split; [done..|].
  rewrite unregister_cache. apply list_elem_of_In, filter_In.
  split; [by apply list_elem_of_In|].
  apply other_hackathon_spec. rewrite Hid. congruence.
Qed.

Lemma register_override_survives_witness :
  let w := signed_in "u1" [] in
  let data : obj := {["hackathon_id" := VStr "Y"]} in
  currentUser w = Some "u1"
  ∧ data !! "hackathon_id" = Some (VStr "Y")
  ∧ "Y" ≠ "X"
  ∧ mockRegistration "X" "u1" (clock w) data
    ∈ cache (unregisterFromHackathon (Rejected offline) "X"
               (registerForHackathon (Fulfilled created) "X" data w).2).2.
Proof.
  intros w data. split; [reflexivity|]. split; [reflexivity|]. split; [discriminate|].
  apply (register_override_survives created (Rejected offline) "X" "Y" "u1" data w);
    [reflexivity|reflexivity|discriminate].
Defined.

(** ** More on registration *)

(** A registration fulfils exactly when a user is signed in and the remote
    call fulfils, and then with the response of that call. *)
Theorem register_fulfils_iff (net : Settled Response) (id : string) (data : obj)
    (w : World) (response : Response) :
  (registerForHackathon net id data w).1 = Fulfilled response
  ↔ is_Some (currentUser w) ∧ net = Fulfilled response.
Proof.
  destruct (currentUser w) as [uid|] eqn:Huser.
  - destruct net as [r|e].
    + rewrite (registerForHackathon_fulfilled _ _ uid) by done. simpl.
      split; [intros [= ->]; eauto|by intros [_ ?]].
    + rewrite (registerForHackathon_rejected _ _ uid) by done.
      destruct (registerForHackathon_catch_world e (sent (register_request id data) w))
        as [e' ->].
      split; [done|by intros [_ ?]].
  - rewrite registerForHackathon_no_user by done. simpl.
    split; [done|]. intros [[? ?] _]. done.
Qed.

Lemma registerForHackathon_catch_shape (e e' : JsError) (w w' : World) :
  registerForHackathon_catch e w = (Rejected e', w') →
  err_response e' = None ∧ err_code e' ≠ Some "ECONNABORTED".
Proof.
  unfold registerForHackathon_catch.
  repeat (case_bool_decide || case_match); intros [= <- <-]; simpl; done.
Qed.

(** A registration that rejects has not touched [localStorage], and the
    error it throws carries no response and no timeout code: the status and
    the body of the backend's answer do not reach the caller. *)
Theorem register_rejection_shape (net : Settled Response) (id : string) (data : obj)
    (w : World) (e' : JsError) :
  (registerForHackathon net id data w).1 = Rejected e' →
  localStorage (registerForHackathon net id data w).2 = localStorage w
  ∧ err_response e' = None
  ∧ err_code e' ≠ Some "ECONNABORTED".
Proof.
  destruct (currentUser w) as [uid|] eqn:Huser.
  - destruct net as [r|e].
    + by rewrite (registerForHackathon_fulfilled _ _ uid).
    + rewrite (registerForHackathon_rejected _ _ uid) by done.
      destruct (registerForHackathon_catch_world e (sent (register_request id data) w))
        as [e'' He]. rewrite He. simpl. intros [= ->].
      split; [done|]. by eapply registerForHackathon_catch_shape.
  - rewrite registerForHackathon_no_user by done. simpl. by intros [= <-].
Qed.

Lemma register_rejection_shape_witness :
  let run := registerForHackathon (Rejected (http_error 500 (Some "boom"))) "X" ∅
               (signed_in "u1" []) in
  run.1 = Rejected (Error "boom")
  ∧ err_response (Error "boom") = None.
Proof.
  intros run. assert (run.1 = Rejected (Error "boom")) as Hrun by reflexivity.
  split; [exact Hrun|].
  by destruct (register_rejection_shape _ _ _ _ _ Hrun) as (_ & ? & _).
Defined.

(** The cached record carries every property of the registration data
    unchanged, also over the fixed properties, and always has the six fixed
    properties; its title is the data's whenever the data has one, even an
    empty one, and the stock title otherwise. *)
Theorem mockRegistration_spread (id uid now : string) (data : obj) :
  let reg := mockRegistration id uid now data in
  data ⊆ reg
  ∧ dom reg = dom data ∪ {["id"; "hackathon_id"; "user_id"; "registration_date";
                           "status"; "hackathon_title"]}
  ∧ reg !! "hackathon_title"
    = Some (default (VStr "Registered Hackathon") (data !! "hackathon_title")).
Proof.
  intros reg. unfold reg, mockRegistration. split; [apply map_union_subseteq_l|].
  split.
  - rewrite dom_union_L, !dom_insert_L, dom_empty_L. set_solver.
  - destruct (data !! "hackathon_title") as [v|] eqn:Hv.
    + by rewrite (lookup_union_Some_l _ _ _ _ Hv).
    + rewrite lookup_union_r by done.
      do 5 (rewrite lookup_insert_ne by done). by rewrite lookup_insert_eq.
Qed.

(** The fallback path does not deduplicate: after two successful
    registrations for one hackathon, a listing whose remote call fails
    returns two entries with the same identifier. *)
Theorem fallback_keeps_duplicates (r1 r2 : Response) (e : JsError) (id uid : string)
    (d1 d2 : obj) (w : World) :
  currentUser w = Some uid →
  d1 !! "hackathon_id" = None →
  d2 !! "hackathon_id" = None →
  let w1 := (registerForHackathon (Fulfilled r1) id d1 w).2 in
  let w2 := (registerForHackathon (Fulfilled r2) id d2 w1).2 in
  ∃ regs,
    (getUserRegistrations (Rejected e) w2).1 = Fulfilled (registrations_response regs)
    ∧ ¬ ids_distinct regs.
Proof.
  intros Huser Hd1 Hd2 w1 w2. exists (cache w2).
  split; [by rewrite getUserRegistrations_rejected|].
  assert (currentUser w1 = Some uid) as Huser1.
  { unfold w1. by rewrite (registerForHackathon_fulfilled _ _ uid). }
  assert (cache w2 = cache w ++ [mockRegistration id uid (clock w) d1;
                                 mockRegistration id uid (clock w1) d2]) as ->.
  { unfold w2. rewrite (registerForHackathon_fulfilled _ _ uid) by done. simpl.
    rewrite cache_cached. unfold w1 at 1.
    rewrite (registerForHackathon_fulfilled _ _ uid) by done. simpl.
    by rewrite cache_cached, <- app_assoc. }
  apply ids_distinct_app_inv. unfold same_id.
  rewrite !mockRegistration_hackathon_id by done. simpl. apply String.eqb_refl.
Qed.

Lemma fallback_keeps_duplicates_witness :
  let w := signed_in "u1" [] in
  currentUser w = Some "u1"
  ∧ (∅ : obj) !! "hackathon_id" = None
  ∧ ∃ regs,
      (getUserRegistrations (Rejected offline)
         (registerForHackathon (Fulfilled created) "X" ∅
            (registerForHackathon (Fulfilled created) "X" ∅ w).2).2).1
        = Fulfilled (registrations_response regs)
      ∧ ¬ ids_distinct regs.
Proof.
  intros w. split; [reflexivity|]. split; [reflexivity|].
  apply (fallback_keeps_duplicates created created offline "X" "u1" ∅ ∅ w);
    reflexivity.
Defined.

(** ** More on the dashboard statistics *)

Lemma participants_length_nonneg (h : obj) : (0 ≤ participants_length h)%Z.
Proof. unfold participants_length. repeat case_match; lia. Qed.

Lemma fold_registrations (l : list obj) (acc : Z) :
  fold_left (λ sum h, sum + participants_length h)%Z l acc
  = (acc + fold_left (λ sum h, sum + participants_length h)%Z l 0)%Z.
Proof.
  revert acc. induction l as [|h l IH]; intros acc; simpl; [lia|].
  rewrite (IH (acc + participants_length h)%Z), (IH (0 + participants_length h)%Z). lia.
Qed.

Lemma totalRegistrations_cons (h : obj) (l : list obj) :
  AnalyticsModal.totalRegistrations (h :: l)
  = (participants_length h + AnalyticsModal.totalRegistrations l)%Z.
Proof.
  unfold AnalyticsModal.totalRegistrations. simpl. rewrite fold_registrations. lia.
Qed.

Lemma totalRegistrations_app (a b : list obj) :
  AnalyticsModal.totalRegistrations (a ++ b)
  = (AnalyticsModal.totalRegistrations a + AnalyticsModal.totalRegistrations b)%Z.
Proof.
  induction a as [|h a IH]; simpl; [done|].
  rewrite !totalRegistrations_cons, IH. lia.
Qed.

Lemma totalRegistrations_bound (l : list obj) (h : obj) :
  h ∈ l → (0 ≤ participants_length h ≤ AnalyticsModal.totalRegistrations l)%Z.
Proof.
  induction l as [|x l IH]; intros Hin; [by apply elem_of_nil in Hin|].
  rewrite totalRegistrations_cons.
  pose proof (participants_length_nonneg x).
  assert (0 ≤ AnalyticsModal.totalRegistrations l)%Z.
  { clear. induction l as [|y l IH]; [done|]. rewrite totalRegistrations_cons.
    pose proof (participants_length_nonneg y). lia. }
  apply elem_of_cons in Hin as [->|Hin]; [lia|]. specialize (IH Hin). lia.
Qed.

Lemma status_exclusive (h : obj) :
  has_status "ongoing" h && has_status "completed" h = false.
Proof.
  unfold has_status. destruct (h !! "status") as [[| | |s|]|]; simpl; try done.
  destruct (String.eqb_spec s "ongoing") as [->|]; done.
Qed.

Lemma filter_disjoint_length {A} (p q : A → bool) (l : list A) :
  (∀ x, p x && q x = false) →
  (length (List.filter p l) + length (List.filter q l) ≤ length l)%nat.
Proof.
  intros Hpq. induction l as [|x l IH]; simpl; [done|].
  specialize (Hpq x). destruct (p x), (q x); simpl in *; (done || lia).
Qed.

Lemma mostPopular_elem (h0 : obj) (tl : list obj) :
  AnalyticsModal.mostPopular (h0 :: tl) ∈ h0 :: tl.
Proof.
  unfold AnalyticsModal.mostPopular. simpl. rewrite Z.gtb_ltb, Z.ltb_irrefl.
  destruct (first_maximum_fold [h0] tl h0) as (i & Hi & _).
  - exists 0%nat. split; [done|]. split.
    + intros [|j] h Hj; simpl in Hj; [|done]. injection Hj as Hj. subst h. lia.
    + intros j h Hj. lia.
  - apply list_elem_of_lookup. eauto.
Qed.

(** The statistics of the organiser dashboard are consistent: no count is
    negative, ongoing and completed events together are no more than all
    events, every event's participant count is within the total of
    registrations, and so is that of the most popular event of the
    analytics view. *)
Theorem stats_consistent (hackathonData : list obj) :
  let stats := FacultyDashboard.calculateStats hackathonData in
  (0 ≤ FacultyDashboard.activeHackathons stats)%Z
  ∧ (0 ≤ FacultyDashboard.completedHackathons stats)%Z
  ∧ (FacultyDashboard.activeHackathons stats + FacultyDashboard.completedHackathons stats
     ≤ FacultyDashboard.totalHackathons stats)%Z
  ∧ (∀ h, h ∈ hackathonData →
       (0 ≤ participants_length h ≤ FacultyDashboard.totalRegistrations stats)%Z)
  ∧ (0 ≤ participants_length (AnalyticsModal.mostPopular hackathonData)
     ≤ FacultyDashboard.totalRegistrations stats)%Z.
Proof.
  intros stats. unfold stats, FacultyDashboard.calculateStats. simpl.
  split; [lia|]. split; [lia|]. split.
  { pose proof (filter_disjoint_length (has_status "ongoing") (has_status "completed")
                  hackathonData status_exclusive). lia. }
  split; [apply totalRegistrations_bound|].
  destruct hackathonData as [|h0 tl]; [done|].
  apply (totalRegistrations_bound (h0 :: tl)), mostPopular_elem.
Qed.

Lemma calculateStats_total (l : list obj) :
  FacultyDashboard.totalRegistrations (FacultyDashboard.calculateStats l)
  = AnalyticsModal.totalRegistrations l.
Proof. done. Qed.

Lemma filter_length_perm {A} (p : A → bool) (a b : list A) :
  a ≡ₚ b → length (List.filter p a) = length (List.filter p b).
Proof.
  induction 1 as [|x a b _ IH|x y a|a b c _ IH1 _ IH2]; simpl; try done.
  - destruct (p x); simpl; by rewrite IH.
  - by destruct (p x), (p y).
  - by rewrite IH1.
Qed.

Lemma totalRegistrations_perm (a b : list obj) :
  a ≡ₚ b → AnalyticsModal.totalRegistrations a = AnalyticsModal.totalRegistrations b.
Proof.
  induction 1 as [|x a b _ IH|x y a|a b c _ IH1 _ IH2]; try done.
  - by rewrite !totalRegistrations_cons, IH.
  - rewrite !totalRegistrations_cons. lia.
  - by rewrite IH1.
Qed.

(** The four counts do not depend on the order of the events. *)
Theorem calculateStats_order_free (a b : list obj) :
  a ≡ₚ b →
  FacultyDashboard.calculateStats a = FacultyDashboard.calculateStats b.
Proof.
  intros Hperm. unfold FacultyDashboard.calculateStats.
  pose proof (totalRegistrations_perm a b Hperm) as Htotal.
  unfold AnalyticsModal.totalRegistrations in Htotal. rewrite Htotal.
  rewrite (filter_length_perm (has_status "ongoing") a b Hperm).
  rewrite (filter_length_perm (has_status "completed") a b Hperm).
  by rewrite (Permutation_length Hperm).
Qed.

Lemma calculateStats_order_free_witness :
  let a := hackathon_with "a" [VStr "u1"] in
  let b := <["status" := VStr "ongoing"]> (hackathon_with "b" []) in
  [a; b] ≡ₚ [b; a]
  ∧ FacultyDashboard.calculateStats [a; b] = FacultyDashboard.calculateStats [b; a].
Proof.
  intros a b. split; [apply perm_swap|].
  apply (calculateStats_order_free [a; b] [b; a]), perm_swap.
Defined.

(** The four counts add up over a list cut in two: the statistics of a
    concatenation are the sums of the statistics of its parts. *)
Theorem calculateStats_additive (a b : list obj) :
  let sa := FacultyDashboard.calculateStats a in
  let sb := FacultyDashboard.calculateStats b in
  FacultyDashboard.calculateStats (a ++ b)
  = {| FacultyDashboard.totalHackathons :=
         FacultyDashboard.totalHackathons sa + FacultyDashboard.totalHackathons sb;
       FacultyDashboard.totalRegistrations :=
         FacultyDashboard.totalRegistrations sa + FacultyDashboard.totalRegistrations sb;
       FacultyDashboard.activeHackathons :=
         FacultyDashboard.activeHackathons sa + FacultyDashboard.activeHackathons sb;
       FacultyDashboard.completedHackathons :=
         FacultyDashboard.completedHackathons sa
         + FacultyDashboard.completedHackathons sb |}%Z.
Proof.
  intros sa sb. unfold sa, sb, FacultyDashboard.calculateStats. simpl.
  pose proof (totalRegistrations_app a b) as Htotal.
  unfold AnalyticsModal.totalRegistrations in Htotal. rewrite Htotal.
  rewrite !List.filter_app, !length_app. f_equal; lia.
Qed.

(** ** CSV export *)

Lemma csv_rows_length (hackathons : list obj) (rows : list CsvExport.Row) :
  CsvExport.getRegistrationsCSVData hackathons = Normal rows →
  Forall participants_listed hackathons
  ∧ Z.of_nat (length rows) = AnalyticsModal.totalRegistrations hackathons.
Proof.
  revert rows. induction hackathons as [|h l IH]; intros rows; simpl.
  - intros [= <-]. by split.
  - unfold CsvExport.rows_of, participants_listed.
    destruct (CsvExport.getRegistrationsCSVData l) as [more|] eqn:Hmore.
    + destruct (IH more eq_refl) as [Hall Hlen].
      rewrite totalRegistrations_cons. unfold participants_length.
      destruct (h !! "participants") as [[| | | |ps]|] eqn:Hp; try done;
        intros [= <-]; (split; [constructor; [by rewrite Hp|done]|]);
        rewrite ?length_app, ?length_map; simpl; lia.
    + by repeat case_match.
Qed.

Lemma csv_rows_defined (hackathons : list obj) :
  Forall participants_listed hackathons →
  ∃ rows, CsvExport.getRegistrationsCSVData hackathons = Normal rows.
Proof.
  induction 1 as [|h l Hh _ [more IH]]; simpl; [eauto|].
  rewrite IH. unfold CsvExport.rows_of. unfold participants_listed in Hh.
  destruct (h !! "participants") as [[| | | |ps]|]; try done; eauto.
Qed.

(** The CSV export succeeds exactly when every event's participants are a
    list or missing, and then it has one row per registration counted on
    the dashboard; a participants value of another kind makes the export
    throw although the dashboard counts it. *)
Theorem csv_matches_total (hackathons : list obj) :
  (∃ rows,
     CsvExport.getRegistrationsCSVData hackathons = Normal rows
     ∧ Z.of_nat (length rows)
       = FacultyDashboard.totalRegistrations
           (FacultyDashboard.calculateStats hackathons))
  ↔ Forall participants_listed hackathons.
Proof.
  rewrite calculateStats_total. split.
  - intros (rows & Hrows & _). by apply csv_rows_length in Hrows as [? _].
  - intros Hall. destruct (csv_rows_defined hackathons Hall) as [rows Hrows].
    exists rows. split; [done|]. by apply csv_rows_length in Hrows as [_ ?].
Qed.

Example csv_throws_where_stats_count :
  let h : obj := {["participants" := VStr "u1,u2"]} in
  CsvExport.getRegistrationsCSVData [h] = TypeError
  ∧ FacultyDashboard.totalRegistrations (FacultyDashboard.calculateStats [h]) = 5%Z.
Proof. split; reflexivity. Qed.

(** ** Filtering the organiser's events *)

Lemma filter_throwing_sublist {A} (p : A → Completion bool) (l kept : list A) :
  filter_throwing p l = Normal kept → sublist kept l.
Proof.
  revert kept. induction l as [|x l IH]; intros kept; simpl.
  - intros [= <-]. constructor.
  - destruct (p x) as [keep|]; [|done].
    destruct (filter_throwing p l) as [kept'|]; [|done].
    intros [= <-]. specialize (IH kept' eq_refl).
    destruct keep; [by apply sublist_skip|by apply sublist_cons].
Qed.

Lemma filter_throwing_defined {A} (p : A → Completion bool) (l : list A) :
  Forall (λ x, p x ≠ TypeError) l → ∃ kept, filter_throwing p l = Normal kept.
Proof.
  induction 1 as [|x l Hx _ [kept IH]]; simpl; [eauto|].
  rewrite IH. destruct (p x); [eauto|done].
Qed.

(** What the organiser's list shows is a subsequence of the events, and
    under a status filter other than "all" every event shown has that
    status. *)
Theorem filterHackathons_shown (toLowerCase : string → string)
    (hackathons shown : list obj) (searchTerm statusFilter : string) :
  filterHackathons toLowerCase hackathons searchTerm statusFilter = Normal shown →
  sublist shown hackathons
  ∧ (statusFilter ≠ "all" →
     Forall (λ h, h !! "status" = Some (VStr statusFilter)) shown).
Proof.
  unfold filterHackathons.
  destruct (if negb (String.eqb searchTerm "")
            then filter_throwing (matches_search toLowerCase searchTerm) hackathons
            else Normal hackathons) as [filtered|] eqn:Hfiltered; [|done].
  assert (sublist filtered hackathons) as Hsub.
  { destruct (negb (String.eqb searchTerm "")).
    - by eapply filter_throwing_sublist.
    - by injection Hfiltered as <-. }
  intros [= <-]. destruct (String.eqb_spec statusFilter "all") as [->|Hne]; simpl.
  - split; [done|]. by intros [].
  - split; [by etrans; [apply filter_sublist|]|]. intros _.
    apply Forall_forall. intros h Hh.
    apply list_elem_of_In, filter_In in Hh as [_ Hh]. by apply strict_eq_str.
Qed.

Lemma filterHackathons_shown_witness :
  let a := <["status" := VStr "ongoing"]> (hackathon_with "Alpha" []) in
  let b := <["status" := VStr "completed"]> (hackathon_with "Beta" []) in
  filterHackathons (λ s, s) [a; b] "" "ongoing" = Normal [a]
  ∧ sublist [a] [a; b].
Proof.
  intros a b.
  assert (filterHackathons (λ s, s) [a; b] "" "ongoing" = Normal [a]) as Hrun
    by (vm_compute; reflexivity).
  split; [exact Hrun|].
  by destruct (filterHackathons_shown _ _ _ _ _ Hrun) as [? _].
Defined.

(** Filtering throws only while searching: never with an empty search term,
    and never when every event has a string title and a string
    description. *)
Theorem filterHackathons_defined (toLowerCase : string → string)
    (hackathons : list obj) (searchTerm statusFilter : string) :
  searchTerm = "" ∨ Forall (λ h, has_text "title" h ∧ has_text "description" h) hackathons →
  ∃ shown,
    filterHackathons toLowerCase hackathons searchTerm statusFilter = Normal shown.
Proof.
  intros Hcase. unfold filterHackathons.
  destruct (String.eqb_spec searchTerm "") as [->|Hne]; simpl; [eauto|].
  destruct Hcase as [?|Hall]; [done|].
  destruct (filter_throwing_defined (matches_search toLowerCase searchTerm) hackathons)
    as [kept ->]; [|eauto].
  eapply Forall_impl; [exact Hall|]. intros h [[t Ht] [d Hd]].
  unfold matches_search, lower_includes. rewrite Ht, Hd. by case_match.
Qed.

Lemma filterHackathons_defined_witness :
  let a := <["description" := VStr "A weekend of code"]> (hackathon_with "Alpha" []) in
  ("code" = "" ∨ Forall (λ h, has_text "title" h ∧ has_text "description" h) [a])
  ∧ ∃ shown, filterHackathons (λ s, s) [a] "code" "all" = Normal shown.
Proof.
  intros a.
  assert ("code" = "" ∨ Forall (λ h, has_text "title" h ∧ has_text "description" h) [a])
    as Hcase.
  { right. constructor; [|constructor]. split; eexists; reflexivity. }
  split; [exact Hcase|].
  exact (filterHackathons_defined (λ s, s) [a] "code" "all" Hcase).
Defined.

(** Without a search term, the status filters "ongoing" and "completed"
    show as many events as the dashboard counts as active and completed,
    and "all" shows every event. *)
Lemma filterHackathons_counts (toLowerCase : string → string) (hackathons : list obj) :
  let stats := FacultyDashboard.calculateStats hackathons in
  filterHackathons toLowerCase hackathons "" "all" = Normal hackathons
  ∧ (∃ shown, filterHackathons toLowerCase hackathons "" "ongoing" = Normal shown
       ∧ Z.of_nat (length shown) = FacultyDashboard.activeHackathons stats)
  ∧ (∃ shown, filterHackathons toLowerCase hackathons "" "completed" = Normal shown
       ∧ Z.of_nat (length shown) = FacultyDashboard.completedHackathons stats).
Proof.
  intros stats. split; [done|]. split; eexists; split; reflexivity.
Qed.

Example missing_description_throws :
  let a := hackathon_with "Alpha" [] in
  filterHackathons (λ s, s) [a] "alp" "all" = TypeError
  ∧ filterHackathons (λ s, s) [a] "Alp" "all" = Normal [a].
Proof. split; vm_compute; reflexivity. Qed.

(** ** The registrations chart *)

Lemma length_append (a b : string) :
  String.length (a +:+ b) = (String.length a + String.length b)%nat.
Proof. induction a as [|c a IH]; simpl; [done|]. by rewrite IH. Qed.

Lemma length_substring_0 (m : nat) (s : string) :
  String.length (String.substring 0 m s) = Nat.min m (String.length s).
Proof.
  revert s. induction m as [|m IH]; intros [|c s]; simpl; try done.
  by rewrite IH.
Qed.

(** When the chart can be drawn it has one bar per event, in order; the
    bars add up to the total of registrations, and a name that is a string
    has at most 18 characters. *)
Theorem registrationData_bars (hackathons : list obj)
    (bars : list AnalyticsCharts.Bar) :
  AnalyticsCharts.registrationData hackathons = Normal bars →
  map AnalyticsCharts.registrations bars = map participants_length hackathons
  ∧ foldr Z.add 0%Z (map AnalyticsCharts.registrations bars)
    = AnalyticsModal.totalRegistrations hackathons
  ∧ Forall (λ bar, ∀ s, AnalyticsCharts.name bar = VStr s → (String.length s ≤ 18)%nat)
      bars.
Proof.
  revert bars. induction hackathons as [|h l IH]; intros bars; simpl.
  - intros [= <-]. by repeat split.
  - destruct (AnalyticsCharts.chart_name (h !! "title")) as [n|] eqn:Hn; [|done].
    destruct (AnalyticsCharts.registrationData l) as [bars'|]; [|done].
    intros [= <-]. destruct (IH bars' eq_refl) as (Hmap & Hsum & Hnames).
    simpl. rewrite totalRegistrations_cons, Hsum, Hmap.
    repeat split. constructor; [|done]. simpl. intros s ->.
    unfold AnalyticsCharts.chart_name in Hn.
    destruct (h !! "title") as [[| | |t|ts]|]; try done.
    + injection Hn as <-.
      destruct (Nat.ltb_spec 15 (String.length t)); [|lia].
      rewrite length_append, length_substring_0, Nat.min_l by lia. simpl. lia.
    + by destruct (15 <? length ts)%nat.
Qed.

Lemma registrationData_bars_witness :
  let h := hackathon_with "International Collegiate Hackathon" [VStr "u1"] in
  AnalyticsCharts.registrationData [h]
    = Normal [{| AnalyticsCharts.name := VStr "International C...";
                 AnalyticsCharts.registrations := 1 |}]
  ∧ foldr Z.add 0%Z [1%Z] = AnalyticsModal.totalRegistrations [h].
Proof.
  intros h.
  assert (AnalyticsCharts.registrationData [h]
    = Normal [{| AnalyticsCharts.name := VStr "International C...";
                 AnalyticsCharts.registrations := 1 |}]) as Hrun
    by (vm_compute; reflexivity).
  split; [exact Hrun|].
  by destruct (registrationData_bars _ _ Hrun) as (_ & ? & _).
Defined.
